(* ===== verification/_CoqProject ===== *)
-Q . S2P
Prelude.v
JsString.v
JsValue.v
JsNumber.v
Json.v
MapWidget.v
Stocks.v
Schedule.v
AboutMe.v
