(* ===== verification/Prelude.v ===== *)
(** * A verification development of GroodInWar/Homework-4_CSCI4131

    ** The program

    Four independent browser scripts under src/static/js/, each bound to
    one page, with no shared state:
    - map.js: [initMap] geocodes the text of every [.locations] element
      (after [enhanceAddress]) and puts a marker with an info window on
      each result; the [#map_search] form asks the browser for the
      position once and, in its callback, asks the directions service for
      a route to [#destination] in the checked travel mode, then shows the
      route or raises an alert;
    - script_aboutme.js: [updateClocks] turns the time of every clock
      card's zone into the rotation of three hands, once a second; the
      [.toggle-btn] flips the [expanded] class of its gist container;
    - script_myschedule.js: a carousel of the location images with one
      index, [.next] / [.previous] buttons and hover thumbnails;
    - stocks.js: the quote form, which fetches the quote API and writes
      an error, a rate-limit note, the pretty-printed payload or
      "Unexpected response format." into [#stock_result].
    The scripts talk only to the page and to providers (geocoder,
    geolocation, directions, fetch, Intl); their callbacks are the only
    interleaving, and the models make it explicit as events in any order.

    ** The files

    - [Prelude] (this file): the scope [js_scope] ([x === y]), the
      notation [let! x := m in k] of computations that may throw, the
      hint databases [js] and [js_rw], the tactics [invc] and
      [string_cases], and the shared lemmas on lists ([existsb_eqb_In],
      [forallb_seq_spec], which turns an exhaustive check into a theorem).
    - [JsString]: the string built-ins ([trim], [includes], [split],
      [toUpperCase], [Number]) on 8-bit strings, with their lemmas.
    - [JsValue]: JavaScript values [jsval] with decidable equality, [[Get]]
      through the prototype chain ([js_get]), ToBoolean, ToString,
      [JSON.stringify(v, null, 2)], the [TypeError] of reading a property
      of [null], and the integer-or-NaN numbers of index arithmetic.
    - [JsNumber]: [Number::toString] of a double ([number_to_string]):
      the shortest round-tripping digits, found by exact comparisons of
      fractions, and the layout rules of the standard.
    - [Json]: [JSON.parse] as a recursive-descent parser with fuel
      ([json_parse]) over the JSON fragment the development writes, with
      the round trip against [JSON.stringify(v, null, 2)].
    - [MapWidget]: Module [Address] ([enhanceAddress], map.js 51-57) and
      Module [Widget] (map.js 1-49 and 59-84): a [widget] record holds the
      markers, the geocoding and route requests in flight, the displayed
      route, the alerts and the form; [widget_step] runs one event
      (a geocoding answer for request [i], a submission, the position, a
      route reply for request [i], an edit, a marker hover).
    - [Stocks]: Module [Quote] ([getData], the [then] and [catch]
      callbacks as [on_data] / [on_error] / [on_response], the submission
      test [submit_symbol]) and Module [Page], the form with its requests
      in flight settling in any order.
    - [Schedule]: Section [Carousel] with the page (location texts and
      images) as context: [scheduleImages], [showImage], [next],
      [previous], the hover handlers [enter] / [leave] moving one
      thumbnail node among the location elements ([gmap] of children),
      [carousel_step] and the inductive [reachable].  The typeclass
      [CyclicCursor] with its laws [CyclicCursorLaws] is the contract of
      the index (a position modulo the number of images); the N-clicks
      theorems are proved against it and the carousel is an instance.
    - [AboutMe]: Module [Clock] ([updateClocks] with the three angles
      computed in primitive doubles, as the browser does, the CSS texts
      [rotate(<angle>deg)] it writes, and the page lifecycle: the load
      handler draws once and starts the timer, each tick redraws) and
      Module [Gist] ([toggle_click]).

    ** What is proved (claims C1-C40 of the manifest)

    - the quote form (C1-C6, C22-C24, C36, C37): the four branches of the
      response in their priority order; failures caught in [getData] give
      "Unexpected response format."; the [catch] runs exactly on a [null]
      body; the request is sent exactly for a non-blank input; every
      request in flight has a non-empty symbol; an older response can
      overwrite a newer one; every settlement writes a string (a type
      property: [.val] never receives [undefined]); the pretty-printed
      payload parses back to the payload ([JSON.parse] after
      [JSON.stringify], a round trip);
    - the carousel (C7-C12, C28, C30-C33): N clicks forward or backward
      from load, the index in range in every reachable state, at most one
      visible direct image (the current one), at most one thumbnail per
      location and only its own, the hover lifecycle, NaN with no
      location, a location named [toString] wired through the prototype
      chain; a refinement: every event sequence of the page is simulated
      by the abstract cursor (index modulo the number of images, set of
      hovered locations) through the abstraction [carousel_abs]; the shown
      thumbnails are exactly those attached to the document; [previous]
      is [next] iterated [length - 1] times (an equivalence);
    - the map widget (C13-C18, C25-C27, C34, C35, C40): [enhanceAddress];
      for every interleaving of geocoding answers the marker titles are a
      sub-multiset of the location texts; route replies and geolocation
      failures and their alerts; a stale route can win; the destination
      is read when the position arrives; the sentinels are still
      geocoded; [initMap] completes (liveness: for every answer of the
      provider, a run settles every request, with the markers, the logged
      failures and closed info windows); every geocoding request settles
      once (termination: requests in flight plus answers received is
      constant); in every order of the answers, the markers and failures
      are the same up to permutation;
    - the about page (C19-C21, C29, C38, C39): the formatted time read
      back by [split]/[Number]; for every reading up to 24:59:59 the hands
      lie in [0, 360), the second and hour hands are exact and the minute
      hand within 2^-40 degree, but not exact (00:00:03); the gist toggle;
      the page after load and any ticks shows the last reading; the CSS
      texts are [rotate(6*s deg)] and [rotate(30*(h%12)+m/2 deg)] printed
      exactly, the minute text exact except at the listed readings.

    ** Bounds and fuel

    The event loops are lists of events run by a [Fixpoint] on the list.
    [json_parse] runs on fuel [S (length text)]: every nested value
    consumes at least one character, and the round trip is proved for any
    fuel at least [json_size v], which is at most the length of the
    printed text.  [number_to_string] searches at most 17 digits, the
    most a double needs; its last round takes the closer candidate.  The
    clock's domain is finite (hours up to 24, the value some engines print
    at midnight, minutes and seconds below 60); its float facts and CSS
    texts are checked on every point of it by [vm_compute] and turned into
    theorems with [forallb_seq_spec] and [Leibniz.eqb_spec].  The round
    trip of the formatter holds for fields below 100.

    ** Not modelled

    The providers (geocoder, geolocation, directions, fetch, Intl): their
    answers are arbitrary events of the models.  jQuery, the DOM and CSS
    beyond the state the handlers change.  The 1000 ms period of the timer
    (ticks are events, their readings arbitrary).  [toUpperCase] beyond
    ASCII, [Number] beyond decimal integer literals.  Numbers in JSON
    payloads are integers of at most 2^53; [json_parse] answers None for
    texts outside that fragment (fractions, exponents, [-0], [\u] escapes
    above 0xFF, keys made of digits only, which [JSON.stringify] reorders).

    ** Plan of the next steps

    1. Numbers of JSON payloads as doubles, with [number_to_string] as the
       printer, so that the round trip covers every finite number.
    2. The marker info windows as a reachability invariant of
       [widget_step] over arbitrary interleavings with hovers.
    3. A [Module Type] of the providers' answers shared by the map and the
       quote form, and the composed page events of map.js and stocks.js. *)

From stdpp Require Import base list strings.
From Stdlib Require Import String Ascii ZArith Lia.

(** ** Scope of the development's notations

    [x === y] is JavaScript's strict equality on strings, the test the
    scripts use when they compare a location name with a sentinel or a
    status string with ["OK"]. *)

Declare Scope js_scope.
Delimit Scope js_scope with js.
Notation "x === y" := (String.eqb x y) (at level 70, no associativity) : js_scope.
Open Scope js_scope.

(** ** Throwing computations

    A JavaScript computation that may throw is a value of [E + A]: [inl]
    is the exception, [inr] the result.  [let! x := m in k] runs [k] on
    the result of [m] and propagates an exception of [m] unchanged, as
    the statements after a throwing expression are skipped. *)

Definition throw_bind {E A B : Type} (m : E + A) (k : A -> E + B) : E + B :=
  match m with
  | inl e => inl e
  | inr a => k a
  end.

Notation "'let!' x := m 'in' k" := (throw_bind m (fun x => k))
  (at level 10, x name, m at level 100, k at level 200) : js_scope.

(** ** The development's hint database *)

Create HintDb js discriminated.
Create Rewrite HintDb js_rw.

(** ** Tactics *)

(** [invc H]: invert a hypothesis of an inductive relation and clean up. *)
Ltac invc H := inversion H; subst; clear H.

(** [string_cases]: split on every string comparison [a === b] of the
    goal, turning each into an equation or a disequation. *)
Ltac string_cases :=
  repeat match goal with
  | |- context [String.eqb ?a ?b] =>
      destruct (String.eqb_spec a b); subst
  end.

(** ** Generic lemmas on lists *)

(** [existsb] with string equality is list membership: the model of
    [Array.prototype.includes] on an array of strings. *)
Lemma existsb_eqb_In (x : string) (l : list string) :
  existsb (fun e => e === x) l = true <-> In x l.
Proof.
  rewrite existsb_exists. split.
  - intros [y [Hy Heq]]. apply String.eqb_eq in Heq. subst. exact Hy.
  - intros H. exists x. split; [exact H | apply String.eqb_refl].
Qed.

(** An exhaustive check over an interval of [nat]: a [forallb] over
    [seq a n] that evaluates to [true] proves the property of every
    number of the interval.  The finite-domain bounds of the clock are
    proved this way. *)
Lemma forallb_seq_spec (f : nat -> bool) (a n : nat) :
  forallb f (seq a n) = true -> forall k, a <= k < a + n -> f k = true.
Proof.
  intros H k Hk. rewrite forallb_forall in H. apply H.
  apply in_seq. lia.
Qed.

#[export] Hint Resolve String.eqb_refl : js.

(** Sums over lists, compared pointwise and through [map]. *)
Lemma sum_list_with_le {A : Type} (f g : A -> nat) (l : list A) :
  Forall (fun x => f x <= g x) l -> sum_list_with f l <= sum_list_with g l.
Proof. induction 1; simpl; lia. Qed.

Lemma sum_list_with_map {A B : Type} (g : B -> nat) (h : A -> B) (l : list A) :
  sum_list_with g (map h l) = sum_list_with (fun x => g (h x)) l.
Proof. induction l; simpl; lia. Qed.

(** The default of [List.last] matters only for the empty list. *)
Lemma last_cons_default {A : Type} (t d : A) (l : list A) :
  List.last (t :: l) d = List.last l t.
Proof.
  revert t d. induction l as [|x l IH]; intros t d; [reflexivity|].
  change (List.last (t :: x :: l) d) with (List.last (x :: l) d). by rewrite !IH.
Qed.

(** ** Generic lemmas on strings

    stdpp makes [String.append] opaque to [simpl]; the lemmas unfold it
    by conversion. *)

Lemma string_app_cons (x : ascii) (a b : string) :
  (String x a ++ b)%string = String x (a ++ b).
Proof. reflexivity. Qed.

Lemma string_app_assoc (a b c : string) : ((a ++ b) ++ c)%string = (a ++ (b ++ c))%string.
Proof.
  induction a as [|x a IH]; [reflexivity|]. rewrite !string_app_cons. by rewrite IH.
Qed.

Lemma string_app_nil_r (a : string) : (a ++ EmptyString)%string = a.
Proof. induction a as [|x a IH]; [reflexivity|]. rewrite string_app_cons. by rewrite IH. Qed.

Lemma string_length_app (a b : string) :
  String.length (a ++ b)%string = String.length a + String.length b.
Proof.
  induction a as [|x a IH]; [reflexivity|]. rewrite string_app_cons. simpl. by rewrite IH.
Qed.

(** A common suffix cancels. *)
Lemma string_app_inj_r (a b c : string) : (a ++ c)%string = (b ++ c)%string -> a = b.
Proof.
  intros H. assert (Hl : String.length a = String.length b).
  { apply (f_equal String.length) in H. rewrite !string_length_app in H. lia. }
  revert b H Hl. induction a as [|x a IH]; intros [|y b] H Hl; try discriminate; [done|].
  rewrite !string_app_cons in H. injection H as -> H. f_equal. apply IH; [exact H | simpl in Hl; lia].
Qed.

#[export] Hint Rewrite string_app_cons string_app_assoc string_length_app : js_rw.
