(* ===== verification/JsString.v ===== *)
(** * The JavaScript string built-ins the scripts call

    The four scripts read text from the page and pass it through a few
    built-ins of the language: [String.prototype.trim] (every script),
    [String.prototype.includes] ([enhanceAddress] in map.js),
    [String.prototype.split] with a one-character separator and the
    [Number] conversion ([updateClocks] in script_aboutme.js) and
    [String.prototype.toUpperCase] (stocks.js and map.js).  None of them is
    code of the repository: each is modelled from the ECMAScript
    definition, on strings of 8-bit code units (Stdlib's [string]).

    - [js_trim] removes the JavaScript white space of that range (TAB, LF,
      VT, FF, CR, SPACE and NO-BREAK SPACE U+00A0) at both ends.
    - [js_includes s sub] is [s.includes(sub)]: [sub] occurs at some
      position of [s] (the empty string occurs everywhere).
    - [js_split c s] is [s.split(c)] for a one-character separator.
    - [js_to_upper] is [toUpperCase] on ASCII letters; the Latin-1
      letters above 127 are left unchanged, so the model is the built-in
      on ASCII strings only ([is_ascii]).
    - [js_Number] is [Number(s)] on the strings that are a decimal integer
      literal, possibly signed and surrounded by white space, and on the
      white-space-only strings (which give 0); [None] stands for every
      other string (NaN, or a fraction, exponent, hexadecimal or
      [Infinity] literal, which the model does not evaluate).
    - [js_num_of_Z] is the double nearest to an integer, as JavaScript
      stores the value of such a literal. *)

From stdpp Require Import base list strings.
From Stdlib Require Import String Ascii ZArith Lia Floats.
From S2P Require Import Prelude.
Open Scope js_scope.
Open Scope string_scope.

(** ** White space and [trim] *)

(** JavaScript's WhiteSpace and LineTerminator code points below 256. *)
Definition is_js_ws (c : ascii) : bool :=
  match nat_of_ascii c with
  | 9 | 10 | 11 | 12 | 13 | 32 | 160 => true
  | _ => false
  end.

Fixpoint trim_start (s : string) : string :=
  match s with
  | EmptyString => EmptyString
  | String c r => if is_js_ws c then trim_start r else s
  end.

Fixpoint trim_end (s : string) : string :=
  match s with
  | EmptyString => EmptyString
  | String c r =>
      let r' := trim_end r in
      if is_js_ws c && (r' === "") then EmptyString else String c r'
  end.

Definition js_trim (s : string) : string := trim_end (trim_start s).

(** ** [includes] *)

Fixpoint js_includes (s sub : string) : bool :=
  String.prefix sub s ||
  match s with
  | EmptyString => false
  | String _ r => js_includes r sub
  end.

(** ** [split] on a one-character separator *)

Fixpoint js_split (sep : ascii) (s : string) : list string :=
  match s with
  | EmptyString => [EmptyString]
  | String c r =>
      let parts := js_split sep r in
      if Ascii.eqb sep c then EmptyString :: parts
      else match parts with
           | p :: ps => String c p :: ps
           | [] => [String c EmptyString]
           end
  end.

(** ** [toUpperCase] on ASCII *)

Definition is_ascii (s : string) : bool :=
  forallb (fun c => Nat.ltb (nat_of_ascii c) 128) (list_ascii_of_string s).

Definition ascii_upper (c : ascii) : ascii :=
  let n := nat_of_ascii c in
  if Nat.leb 97 n && Nat.leb n 122 then ascii_of_nat (n - 32) else c.

Fixpoint js_to_upper (s : string) : string :=
  match s with
  | EmptyString => EmptyString
  | String c r => String (ascii_upper c) (js_to_upper r)
  end.

(** ** [Number] on decimal integer literals *)

Definition digit_value (c : ascii) : option Z :=
  let n := nat_of_ascii c in
  if Nat.leb 48 n && Nat.leb n 57 then Some (Z.of_nat (n - 48)) else None.

(** The value of a non-empty string of decimal digits, read left to
    right with an accumulator. *)
Fixpoint digits_value (acc : Z) (s : string) : option Z :=
  match s with
  | EmptyString => Some acc
  | String c r =>
      match digit_value c with
      | Some d => digits_value (10 * acc + d) r
      | None => None
      end
  end.

Definition unsigned_value (s : string) : option Z :=
  match s with
  | EmptyString => None
  | _ => digits_value 0 s
  end.

Definition js_Number (s : string) : option Z :=
  match js_trim s with
  | EmptyString => Some 0%Z
  | String "+"%char r => unsigned_value r
  | String "-"%char r => option_map Z.opp (unsigned_value r)
  | t => unsigned_value t
  end.

(** The double nearest to an integer (round to nearest, ties to even). *)
Definition js_num_of_Z (z : Z) : float :=
  SF2Prim (SpecFloat.binary_normalize FloatOps.prec FloatOps.emax z 0 false).

(** ** Lemmas on [trim] and [toUpperCase] *)

(** Every code unit of the string is white space. *)
Definition all_ws (s : string) : bool :=
  forallb is_js_ws (list_ascii_of_string s).

Lemma all_ws_trim_start (s : string) : all_ws (trim_start s) = all_ws s.
Proof.
  induction s as [|c r IH]; [reflexivity|]. simpl.
  destruct (is_js_ws c) eqn:Hc; [|reflexivity].
  rewrite IH. unfold all_ws. simpl. by rewrite Hc.
Qed.

Lemma trim_end_empty (s : string) : trim_end s = "" <-> all_ws s = true.
Proof.
  induction s as [|c r IH]; [split; reflexivity|].
  unfold all_ws. simpl. fold (all_ws r).
  destruct (String.eqb_spec (trim_end r) "") as [He|Hne].
  - rewrite andb_true_r. destruct (is_js_ws c); simpl;
      split; intros H; try discriminate; try reflexivity; by apply IH.
  - rewrite andb_false_r. split; [discriminate|].
    intros H. apply andb_prop in H as [_ H]. apply IH in H. contradiction.
Qed.

Lemma js_trim_empty (s : string) : js_trim s = "" <-> all_ws s = true.
Proof. unfold js_trim. rewrite trim_end_empty. by rewrite all_ws_trim_start. Qed.

Lemma js_to_upper_empty (s : string) : js_to_upper s = "" <-> s = "".
Proof. destruct s; simpl; split; congruence. Qed.

#[export] Hint Rewrite js_trim_empty js_to_upper_empty : js_rw.

(** ** Lemmas on [split] *)

(** The string contains the code unit [c]. *)
Definition has_char (c : ascii) (s : string) : bool :=
  existsb (Ascii.eqb c) (list_ascii_of_string s).

Lemma has_char_app (c : ascii) (a b : string) :
  has_char c (a ++ b) = has_char c a || has_char c b.
Proof.
  unfold has_char. induction a as [|d a IH]; [reflexivity|].
  simpl. rewrite IH. apply orb_assoc.
Qed.

Lemma js_split_none (c : ascii) (s : string) :
  has_char c s = false -> js_split c s = [s].
Proof.
  induction s as [|d r IH]; [reflexivity|].
  unfold has_char; simpl. intros H. apply orb_false_iff in H as [Hd Hr].
  rewrite Hd, IH by exact Hr. reflexivity.
Qed.

Lemma js_split_app (c : ascii) (a b : string) :
  has_char c a = false ->
  js_split c (a ++ String c b) = a :: js_split c b.
Proof.
  induction a as [|d a IH]; simpl.
  - intros _. by rewrite Ascii.eqb_refl.
  - unfold has_char; simpl. intros H. apply orb_false_iff in H as [Hd Ha].
    rewrite Hd, IH by exact Ha. reflexivity.
Qed.
