(* ===== verification/JsValue.v ===== *)
(** * JavaScript values, property access, truthiness and [ToString]

    stocks.js reads the fields ['Error Message'], ['Note'] and
    ['Meta Data'] of the parsed response, tests them for truthiness and
    interpolates them in template literals; script_myschedule.js reads
    [loc_dict[address]] for an arbitrary text [address] and interpolates
    the result in a selector.  This file models these operations of the
    language (modelled from the ECMAScript definitions, not code of the
    repository):

    - [jsval]: the values the scripts handle.  Numbers are integers (the
      payloads of the quote API carry their numbers as strings); an
      object is the list of its own properties in creation order;
      [JFun] is a built-in function and [JBuiltin] a built-in prototype
      object, both only reached through the prototype chain.
    - [js_get v k]: [v[k]], the [[Get]] of a property key on any value,
      with the prototype chain of every kind of value; it is [GetThrows]
      on [undefined] and [null], where JavaScript throws a [TypeError].
    - [js_truthy]: ToBoolean.
    - [js_to_string]: ToString, the conversion of a template literal. *)

From stdpp Require Import base list strings.
From Stdlib Require Import String Ascii ZArith Lia DecimalString.
From S2P Require Import Prelude JsString.
Open Scope js_scope.
Open Scope string_scope.

#[warnings="-register-all"]
Inductive jsval : Type :=
| JUndefined
| JNull
| JBool (b : bool)
| JNum (n : Z)
| JStr (s : string)
| JArr (elems : list jsval)
| JObj (props : list (string * jsval))
| JFun (name : string)
| JBuiltin (name : string).

(** Decidable equality of values, through the nested lists. *)
Definition pair_dec {A B : Type} (da : forall x y : A, {x = y} + {x <> y})
  (db : forall x y : B, {x = y} + {x <> y}) (p q : A * B) : {p = q} + {p <> q}.
Proof.
  destruct p as [a b], q as [c d].
  destruct (da a c), (db b d); [left|right..]; congruence.
Defined.

Fixpoint jsval_eq_dec (x y : jsval) {struct x} : {x = y} + {x <> y}.
Proof.
  refine (match x, y with
  | JUndefined, JUndefined | JNull, JNull => left eq_refl
  | JBool a, JBool b => if bool_dec a b then left _ else right _
  | JNum a, JNum b => if Z.eq_dec a b then left _ else right _
  | JStr a, JStr b | JFun a, JFun b | JBuiltin a, JBuiltin b =>
      if string_dec a b then left _ else right _
  | JArr l1, JArr l2 =>
      if List.list_eq_dec jsval_eq_dec l1 l2 then left _ else right _
  | JObj p1, JObj p2 =>
      if List.list_eq_dec (pair_dec string_dec jsval_eq_dec) p1 p2
      then left _ else right _
  | _, _ => right _
  end); congruence.
Defined.

#[export] Instance jsval_eq_decision : EqDecision jsval := jsval_eq_dec.

(** ** Prototype members

    The string-keyed properties of the built-in prototypes (ES2023 with
    Annex B), read through the prototype chain of each kind of value. *)

Definition object_proto_members : list string :=
  ["constructor"; "__defineGetter__"; "__defineSetter__"; "hasOwnProperty";
   "__lookupGetter__"; "__lookupSetter__"; "isPrototypeOf";
   "propertyIsEnumerable"; "toString"; "valueOf"; "toLocaleString"].

Definition string_proto_members : list string :=
  ["at"; "charAt"; "charCodeAt"; "codePointAt"; "concat"; "endsWith";
   "includes"; "indexOf"; "isWellFormed"; "lastIndexOf"; "localeCompare";
   "match"; "matchAll"; "normalize"; "padEnd"; "padStart"; "repeat";
   "replace"; "replaceAll"; "search"; "slice"; "split"; "startsWith";
   "substring"; "toLocaleLowerCase"; "toLocaleUpperCase"; "toLowerCase";
   "toUpperCase"; "toWellFormed"; "trim"; "trimEnd"; "trimStart";
   "anchor"; "big"; "blink"; "bold"; "fixed"; "fontcolor"; "fontsize";
   "italics"; "link"; "small"; "strike"; "sub"; "sup"; "substr";
   "trimLeft"; "trimRight"].

Definition array_proto_members : list string :=
  ["at"; "concat"; "copyWithin"; "entries"; "every"; "fill"; "filter";
   "find"; "findIndex"; "findLast"; "findLastIndex"; "flat"; "flatMap";
   "forEach"; "includes"; "indexOf"; "join"; "keys"; "lastIndexOf"; "map";
   "pop"; "push"; "reduce"; "reduceRight"; "reverse"; "shift"; "slice";
   "some"; "sort"; "splice"; "toReversed"; "toSorted"; "toSpliced";
   "unshift"; "values"; "with"].

Definition number_proto_members : list string :=
  ["toExponential"; "toFixed"; "toPrecision"].

Definition function_proto_members : list string :=
  ["apply"; "bind"; "call"; "length"; "name"; "arguments"; "caller"].

(** The prototype of each kind of value, by the name of its
    [JBuiltin] object. *)
Definition proto_name (v : jsval) : string :=
  match v with
  | JBool _ => "Boolean.prototype"
  | JNum _ => "Number.prototype"
  | JStr _ => "String.prototype"
  | JArr _ => "Array.prototype"
  | JFun _ => "Function.prototype"
  | _ => "Object.prototype"
  end.

(** The members of that prototype that are not inherited from
    [Object.prototype]. *)
Definition own_proto_members (v : jsval) : list string :=
  match v with
  | JStr _ => string_proto_members
  | JArr _ => array_proto_members
  | JNum _ => number_proto_members
  | JFun _ => function_proto_members
  | _ => []
  end.

Definition mem (k : string) (l : list string) : bool :=
  existsb (fun e => e === k) l.

(** Lookup through the prototype chain, below the own properties. *)
Definition proto_get (v : jsval) (k : string) : jsval :=
  if k === "__proto__" then JBuiltin (proto_name v)
  else if mem k (own_proto_members v) || mem k object_proto_members
  then JFun k
  else JUndefined.

(** ** Array indices

    A key is an array index when it is ["0"] or a string of decimal
    digits without a leading zero. *)
Definition array_index (k : string) : option nat :=
  match k with
  | String "0"%char EmptyString => Some 0
  | String "0"%char _ => None
  | EmptyString => None
  | _ => option_map Z.to_nat (digits_value 0 k)
  end.

Fixpoint assoc_get (k : string) (props : list (string * jsval))
    : option jsval :=
  match props with
  | [] => None
  | (k', v) :: ps => if k' === k then Some v else assoc_get k ps
  end.

(** ** [[Get]] *)

Inductive get_result : Type :=
| GetValue (v : jsval)
| GetThrows (base : string).

Definition js_get (v : jsval) (k : string) : get_result :=
  match v with
  | JUndefined => GetThrows "undefined"
  | JNull => GetThrows "null"
  | JObj props =>
      GetValue (match assoc_get k props with
                | Some x => x
                | None => proto_get v k
                end)
  | JStr s =>
      GetValue (if k === "length" then JNum (Z.of_nat (String.length s))
                else match array_index k with
                     | Some i =>
                         match String.get i s with
                         | Some c => JStr (String c EmptyString)
                         | None => JUndefined
                         end
                     | None => proto_get v k
                     end)
  | JArr l =>
      GetValue (if k === "length" then JNum (Z.of_nat (List.length l))
                else match array_index k with
                     | Some i => default JUndefined (l !! i)
                     | None => proto_get v k
                     end)
  | _ => GetValue (proto_get v k)
  end.

(** ** ToBoolean *)

Definition js_truthy (v : jsval) : bool :=
  match v with
  | JUndefined | JNull => false
  | JBool b => b
  | JNum n => negb (Z.eqb n 0)
  | JStr s => negb (s === "")
  | _ => true
  end.

(** ** ToString *)

Definition z_to_decimal (n : Z) : string :=
  NilZero.string_of_int (Z.to_int n).

Fixpoint js_to_string (v : jsval) : string :=
  match v with
  | JUndefined => "undefined"
  | JNull => "null"
  | JBool true => "true"
  | JBool false => "false"
  | JNum n => z_to_decimal n
  | JStr s => s
  | JArr l =>
      (* Array.prototype.join(","), with null and undefined as "" *)
      let elem := fun x => match x with
                           | JUndefined | JNull => ""
                           | _ => js_to_string x
                           end in
      String.concat "," (map elem l)
  | JObj _ => "[object Object]"
  | JFun name => "function " ++ name ++ "() { [native code] }"
  | JBuiltin "String.prototype" | JBuiltin "Array.prototype" => ""
  | JBuiltin "Number.prototype" => "0"
  | JBuiltin "Boolean.prototype" => "false"
  | JBuiltin "Function.prototype" => "function () { [native code] }"
  | JBuiltin _ => "[object Object]"
  end.

(** ** [JSON.stringify(v, null, 2)]

    SerializeJSONProperty with the gap of two spaces: [None] is the
    [undefined] that [JSON.stringify] answers for [undefined] and for
    functions; object members with such a value are left out and array
    elements with such a value are written [null].  The built-in
    prototypes serialise as their wrapped value ([String.prototype] is a
    String object of [""], [Array.prototype] an empty array,
    [Object.prototype] an object with no enumerable property). *)

Definition dquote : ascii := "034"%char.
Definition bslash : ascii := "092"%char.
Definition newline : string := String "010"%char EmptyString.

Definition hex_digit (n : nat) : ascii :=
  if Nat.ltb n 10 then ascii_of_nat (48 + n) else ascii_of_nat (87 + n).

(** QuoteJSONString on one code unit. *)
Definition json_escape (c : ascii) : string :=
  match nat_of_ascii c with
  | 8 => String bslash "b"
  | 9 => String bslash "t"
  | 10 => String bslash "n"
  | 12 => String bslash "f"
  | 13 => String bslash "r"
  | 34 => String bslash (String dquote EmptyString)
  | 92 => String bslash (String bslash EmptyString)
  | n => if Nat.ltb n 32
         then String bslash ("u00" ++ String (hex_digit (n / 16))
                                       (String (hex_digit (n mod 16)) EmptyString))
         else String c EmptyString
  end.

Fixpoint json_escape_string (s : string) : string :=
  match s with
  | EmptyString => EmptyString
  | String c r => json_escape c ++ json_escape_string r
  end.

Definition json_quote (s : string) : string :=
  String dquote (json_escape_string s ++ String dquote EmptyString).

(** The bracketed, indented layout of a non-empty object or array. *)
Definition json_block (opn cls : string) (indent : string)
    (items : list string) : string :=
  match items with
  | [] => opn ++ cls
  | _ =>
      let ind' := indent ++ "  " in
      opn ++ newline ++ ind'
        ++ String.concat ("," ++ newline ++ ind') items
        ++ newline ++ indent ++ cls
  end.

Fixpoint json_stringify_at (indent : string) (v : jsval) : option string :=
  match v with
  | JUndefined | JFun _ => None
  | JNull => Some "null"
  | JBool true => Some "true"
  | JBool false => Some "false"
  | JNum n => Some (z_to_decimal n)
  | JStr s => Some (json_quote s)
  | JArr l =>
      Some (json_block "[" "]" indent
              (map (fun x => default "null" (json_stringify_at (indent ++ "  ") x)) l))
  | JObj props =>
      let fix members (ps : list (string * jsval)) : list string :=
        match ps with
        | [] => []
        | (k, x) :: rest =>
            match json_stringify_at (indent ++ "  ") x with
            | Some sx => (json_quote k ++ ": " ++ sx) :: members rest
            | None => members rest
            end
        end in
      Some (json_block "{" "}" indent (members props))
  | JBuiltin "String.prototype" => Some (json_quote "")
  | JBuiltin "Array.prototype" => Some "[]"
  | JBuiltin "Number.prototype" => Some "0"
  | JBuiltin "Boolean.prototype" => Some "false"
  | JBuiltin "Function.prototype" => None
  | JBuiltin _ => Some "{}"
  end.

Definition json_stringify (v : jsval) : option string :=
  json_stringify_at "" v.

(** ** Exceptions of property access

    Reading a property of [undefined] or [null] throws a [TypeError];
    [js_error_to_string] is the string of that error in a template
    literal, with the message V8 gives it. *)

Inductive js_error : Type :=
| TypeErrorRead (base key : string).

Definition js_error_to_string (e : js_error) : string :=
  match e with
  | TypeErrorRead base key =>
      "TypeError: Cannot read properties of " ++ base ++ " (reading '"
        ++ key ++ "')"
  end.

(** [v[k]] as a throwing computation. *)
Definition js_get_or_throw (v : jsval) (k : string) : js_error + jsval :=
  match js_get v k with
  | GetValue x => inr x
  | GetThrows base => inl (TypeErrorRead base k)
  end.

(** ** Lemmas on property access *)

Lemma js_get_or_throw_own (props : list (string * jsval)) (k : string) (x : jsval) :
  assoc_get k props = Some x -> js_get_or_throw (JObj props) k = inr x.
Proof. intros H. unfold js_get_or_throw, js_get. by rewrite H. Qed.

(** A property that is neither an array index, nor ["length"], nor a
    member of a built-in prototype is [undefined] on every value that is
    not an object with that own property. *)
Definition plain_key (k : string) : Prop :=
  k <> "length" /\ k <> "__proto__" /\ array_index k = None /\
  mem k (string_proto_members ++ array_proto_members ++ number_proto_members
           ++ function_proto_members ++ object_proto_members) = false.

Lemma mem_app (k : string) (l1 l2 : list string) :
  mem k (l1 ++ l2) = mem k l1 || mem k l2.
Proof. unfold mem. apply existsb_app. Qed.

Lemma proto_get_plain (v : jsval) (k : string) :
  plain_key k -> proto_get v k = JUndefined.
Proof.
  intros (_ & Hp & _ & Hm). unfold proto_get.
  destruct (String.eqb_spec k "__proto__"); [contradiction|].
  rewrite !mem_app in Hm.
  apply orb_false_iff in Hm as [Hs Hm]; apply orb_false_iff in Hm as [Ha Hm];
  apply orb_false_iff in Hm as [Hn Hm]; apply orb_false_iff in Hm as [Hf Ho].
  destruct v; unfold own_proto_members; rewrite ?Hs, ?Ha, ?Hn, ?Hf, ?Ho; reflexivity.
Qed.

(** The value of such a property. *)
Definition payload_field (v : jsval) (k : string) : jsval :=
  match v with
  | JObj props => default JUndefined (assoc_get k props)
  | _ => JUndefined
  end.

Lemma js_get_or_throw_plain (v : jsval) (k : string) :
  plain_key k -> v <> JNull -> v <> JUndefined ->
  js_get_or_throw v k = inr (payload_field v k).
Proof.
  intros Hk Hn Hu. pose proof (proto_get_plain v k Hk) as Hp.
  destruct Hk as (Hl & _ & Hi & _).
  unfold js_get_or_throw, js_get.
  destruct (String.eqb_spec k "length"); [contradiction|].
  destruct v; try congruence; rewrite ?Hi, ?Hp; reflexivity.
Qed.

Lemma js_get_or_throw_null (k : string) :
  js_get_or_throw JNull k = inl (TypeErrorRead "null" k).
Proof. reflexivity. Qed.

Lemma json_block_head (opn cls indent : string) (items : list string) :
  exists r, json_block opn cls indent items = opn ++ r.
Proof. destruct items; eexists; reflexivity. Qed.

Lemma json_stringify_obj (props : list (string * jsval)) :
  exists r, json_stringify (JObj props) = Some (String "{"%char r).
Proof.
  unfold json_stringify. simpl.
  match goal with |- context [json_block "{" "}" "" ?items] =>
    destruct (json_block_head "{" "}" "" items) as [r ->] end.
  eexists; reflexivity.
Qed.

#[export] Hint Resolve js_get_or_throw_own js_get_or_throw_null : js.

(** ** Numbers of index arithmetic

    The carousel index of script_myschedule.js is a JavaScript number
    computed with [+], [-] and [%] from small integers: it is an integer
    or [NaN] (the remainder by a zero length).  [%] truncates towards
    zero, as [Z.rem]. *)

Inductive jsnum : Type :=
| JsInt (z : Z)
| JsNaN.

Definition js_add (a b : jsnum) : jsnum :=
  match a, b with
  | JsInt x, JsInt y => JsInt (x + y)
  | _, _ => JsNaN
  end.

Definition js_sub (a b : jsnum) : jsnum :=
  match a, b with
  | JsInt x, JsInt y => JsInt (x - y)
  | _, _ => JsNaN
  end.

Definition js_rem (a b : jsnum) : jsnum :=
  match a, b with
  | JsInt x, JsInt y => if Z.eqb y 0 then JsNaN else JsInt (Z.rem x y)
  | _, _ => JsNaN
  end.

(** [arr[n]] on an array of possibly missing elements: [undefined]
    ([None]) outside the indices, and for [NaN]. *)
Definition js_index {A : Type} (l : list (option A)) (n : jsnum) : option A :=
  match n with
  | JsInt z => if Z.leb 0 z then mjoin (l !! Z.to_nat z) else None
  | JsNaN => None
  end.

(** An element read by [js_index] is an element of the array. *)
Lemma js_index_elem {A : Type} (l : list (option A)) (n : jsnum) (x : A) :
  js_index l n = Some x -> Some x ∈ l.
Proof.
  destruct n as [z|]; simpl; [|discriminate].
  destruct (Z.leb 0 z); [|discriminate].
  destruct (l !! Z.to_nat z) as [[y|]|] eqn:E; simpl; intros; simplify_eq.
  by eapply list_elem_of_lookup_2.
Qed.
