(* ===== verification/JsNumber.v ===== *)
(** * [Number::toString] on doubles (ECMA-262, Number::toString(x, 10))

    script_aboutme.js writes each angle into a CSS text with a template
    literal ([`rotate(${angle}deg)`], lines 25-27), which applies
    ToString to the double.  The algorithm of the standard: the shortest
    digit string [s] (of [k] digits, decimal exponent [n]) whose value
    [s * 10^(n-k)] rounds back to the double; among two such strings of
    [k] digits the closer to the double, and between two equally close
    the even one; then the layout rules (plain digits up to 21 integer
    digits, a fraction down to 10^-6, otherwise an exponent).

    The arithmetic is exact, on integers: a double [m * 2^e] and a
    decimal [s * 10^p] are compared as fractions.  At most 17 digits are
    ever needed, so the search stops at 17 and takes the closer
    candidate there. *)

From Stdlib Require Import String Ascii ZArith Lia Floats List.
From S2P Require Import Prelude JsValue.
Import ListNotations.
Open Scope js_scope.
Open Scope string_scope.
Open Scope bool_scope.
Local Open Scope Z_scope.

(** ** Exact comparisons of positive fractions *)

Definition rlt (a b : Z * Z) : bool := Z.ltb (fst a * snd b) (fst b * snd a).
Definition req (a b : Z * Z) : bool := Z.eqb (fst a * snd b) (fst b * snd a).

(** [m * 2^e] as a fraction. *)
Definition binary_ratio (m e : Z) : Z * Z :=
  if Z.leb 0 e then (m * 2 ^ e, 1)%Z else (m, 2 ^ (- e))%Z.

(** [s * 10^p] as a fraction. *)
Definition decimal_ratio (s p : Z) : Z * Z :=
  if Z.leb 0 p then (s * 10 ^ p, 1)%Z else (s, 10 ^ (- p))%Z.

(** [s * 10^p] rounds to the positive double [m * 2^e] (canonical: a
    53-bit [m], or the least exponent -1074): it lies between the
    midpoints with the two neighbours of the double, a midpoint
    included when [m] is even (ties to even).  Below a power of two the
    neighbour is half as far. *)
Definition rounds_to (m e s p : Z) : bool :=
  let d := decimal_ratio s p in
  let hi := binary_ratio (2 * m + 1) (e - 1) in
  let lo := if Z.eqb m (2 ^ 52) && Z.ltb (-1074) e
            then binary_ratio (2 ^ 54 - 1) (e - 2)
            else binary_ratio (2 * m - 1) (e - 1) in
  (rlt lo d || (Z.even m && req lo d)) && (rlt d hi || (Z.even m && req d hi)).

(** ** The decimal exponent *)

(** The number of decimal digits of a positive integer. *)
Fixpoint digits_fuel (fuel : nat) (z : Z) : Z :=
  match fuel with
  | O => 0
  | S f => if Z.ltb z 10 then 1 else 1 + digits_fuel f (z / 10)
  end.

Definition decimal_digits (z : Z) : Z := digits_fuel (Z.to_nat (Z.log2 z + 1)) z.

(** [n] with [10^(n-1) <= x < 10^n]: from the digits of the integer part
    of [x] or of [1/x], then corrected by one at an exact power of ten. *)
Definition decimal_exponent (x : Z * Z) : Z :=
  let est := if Z.leb (snd x) (fst x) then decimal_digits (fst x / snd x)
             else 1 - decimal_digits (snd x / fst x) in
  if negb (rlt x (decimal_ratio 1 est)) then est + 1
  else if rlt x (decimal_ratio 1 (est - 1)) then est - 1
  else est.

(** ** The shortest digits *)

(** The two [k]-digit strings around [x] with exponent [n]: the integer
    part of [x * 10^(k-n)] and the next integer (which, at [10^k], is
    [10^(k-1)] with exponent [n + 1]). *)
Definition candidates (x : Z * Z) (n k : Z) : (Z * Z) * (Z * Z) :=
  let r := decimal_ratio (fst x) (k - n) in
  let s1 := fst r / (snd r * snd x) in
  ((s1, n), if Z.eqb (s1 + 1) (10 ^ k) then (10 ^ (k - 1), n + 1) else (s1 + 1, n))%Z.

(** The distance between [s * 10^(n-k)] and [x]. *)
Definition dist (x : Z * Z) (s n k : Z) : Z * Z :=
  let d := decimal_ratio s (n - k) in
  (Z.abs (fst d * snd x - fst x * snd d), snd d * snd x)%Z.

(** The closer of two candidates, the even one when equally close. *)
Definition pick (x : Z * Z) (k : Z) (c1 c2 : option (Z * Z)) : option (Z * Z) :=
  match c1, c2 with
  | Some (s1, n1), Some (s2, n2) =>
      let d1 := dist x s1 n1 k in
      let d2 := dist x s2 n2 k in
      if rlt d1 d2 then c1 else if rlt d2 d1 then c2
      else if Z.even s1 then c1 else c2
  | Some _, None => c1
  | None, _ => c2
  end.

(** [(s, n, k)] for the least [k] from [k] on; the last round, at 17
    digits, takes the closer candidate. *)
Fixpoint shortest (m e : Z) (x : Z * Z) (n k : Z) (fuel : nat) : Z * Z * Z :=
  let (c1, c2) := candidates x n k in
  let valid c := if rounds_to m e (fst c) (snd c - k) then Some c else None in
  match fuel with
  | O =>
      match pick x k (Some c1) (Some c2) with
      | Some (s, n') => (s, n', k)
      | None => (fst c1, n, k)
      end
  | S f =>
      match pick x k (valid c1) (valid c2) with
      | Some (s, n') => (s, n', k)
      | None => shortest m e x n (k + 1)%Z f
      end
  end.

(** ** The layout *)

Fixpoint zeros (n : nat) : string :=
  match n with
  | O => EmptyString
  | S n' => String "0" (zeros n')
  end.

(** Steps 6-10 of Number::toString for the digits [s], their count [k]
    and the exponent [n]. *)
Definition format_decimal (s n k : Z) : string :=
  let ds := z_to_decimal s in
  if Z.leb k n && Z.leb n 21 then ds ++ zeros (Z.to_nat (n - k))
  else if Z.ltb 0 n && Z.leb n 21 then
    substring 0 (Z.to_nat n) ds ++ "." ++ substring (Z.to_nat n) (Z.to_nat (k - n)) ds
  else if Z.ltb (-6) n && Z.leb n 0 then "0." ++ zeros (Z.to_nat (- n)) ++ ds
  else
    let ex := (n - 1)%Z in
    (if Z.eqb k 1 then ds else substring 0 1 ds ++ "." ++ substring 1 (Z.to_nat (k - 1)) ds)
      ++ "e" ++ (if Z.ltb ex 0 then "-" else "+") ++ z_to_decimal (Z.abs ex).

Definition number_to_string (x : float) : string :=
  match Prim2SF x with
  | S754_nan => "NaN"
  | S754_zero _ => "0"
  | S754_infinity false => "Infinity"
  | S754_infinity true => "-Infinity"
  | S754_finite sign m e =>
      let r := binary_ratio (Zpos m) e in
      let '(s, n, k) := shortest (Zpos m) e r (decimal_exponent r) 1 16 in
      (if sign then "-" else "") ++ format_decimal s n k
  end.
