(* ===== verification/Json.v ===== *)
(** * [JSON.parse] on 8-bit texts (ECMA-262 JSON.parse, RFC 8259)

    stocks.js reads the quote with [response.json()] (line 7), which is
    [JSON.parse] of the body, and writes the payload back with
    [JSON.stringify(data, null, 2)] (line 26).  This file models the
    parser as a recursive descent over the text, with fuel, and proves
    that it reads back every JSON value [JSON.stringify] prints.

    The parser answers [None] for a text that is not JSON (the
    [SyntaxError] of the engine) and also for the JSON texts outside the
    modelled fragment of values: numbers that are not integers of at
    most 2^53 in absolute value or are written [-0], [\u] escapes of a
    code unit above 0xFF, and objects with a key made of digits only
    (the engine orders such keys before the others).  Objects keep their
    keys in insertion order and a repeated key keeps its first place
    with its last value, as [CreateDataProperty] does. *)

From stdpp Require Import base list strings sets.
From Stdlib Require Import String Ascii ZArith Lia DecimalString DecimalZ.
From S2P Require Import Prelude JsString JsValue.
Open Scope js_scope.
Open Scope string_scope.

(** ** Induction on values through their arrays and objects *)

Section JsvalInd.
Variable P : jsval -> Prop.
Hypothesis HUndefined : P JUndefined.
Hypothesis HNull : P JNull.
Hypothesis HBool : forall b, P (JBool b).
Hypothesis HNum : forall n, P (JNum n).
Hypothesis HStr : forall s, P (JStr s).
Hypothesis HArr : forall l, Forall P l -> P (JArr l).
Hypothesis HObj : forall ps, Forall (fun kv => P kv.2) ps -> P (JObj ps).
Hypothesis HFun : forall s, P (JFun s).
Hypothesis HBuiltin : forall s, P (JBuiltin s).

Fixpoint jsval_nested_ind (v : jsval) : P v :=
  match v with
  | JUndefined => HUndefined
  | JNull => HNull
  | JBool b => HBool b
  | JNum n => HNum n
  | JStr s => HStr s
  | JArr l =>
      HArr l ((fix go (l : list jsval) : Forall P l :=
                 match l as l0 return Forall P l0 with
                 | [] => ListDef.Forall_nil P
                 | x :: r => @ListDef.Forall_cons _ P x r (jsval_nested_ind x) (go r)
                 end) l)
  | JObj ps =>
      HObj ps ((fix go (ps : list (string * jsval)) : Forall (fun kv => P kv.2) ps :=
                  match ps as ps0 return Forall (fun kv => P kv.2) ps0 with
                  | [] => ListDef.Forall_nil _
                  | (k, x) :: r => @ListDef.Forall_cons _ (fun kv => P kv.2) (k, x) r (jsval_nested_ind x) (go r)
                  end) ps)
  | JFun s => HFun s
  | JBuiltin s => HBuiltin s
  end.
End JsvalInd.

(** ** The values a JSON text denotes in the model *)

(** The largest magnitude of an integer a double holds exactly. *)
Definition max_safe : Z := 2 ^ 53.

Fixpoint all_digits (s : string) : bool :=
  match s with
  | EmptyString => true
  | String c r => match digit_value c with Some _ => all_digits r | None => false end
  end.

(** A key made of digits only, which may be an array index. *)
Definition index_like (k : string) : bool :=
  match k with
  | EmptyString => false
  | _ => all_digits k
  end.

Fixpoint is_json (v : jsval) : bool :=
  match v with
  | JNull | JBool _ | JStr _ => true
  | JNum n => Z.leb (Z.abs n) max_safe
  | JArr l => forallb is_json l
  | JObj ps =>
      forallb (fun '(k, x) => negb (index_like k) && is_json x) ps
        && bool_decide (NoDup (map fst ps))
  | JUndefined | JFun _ | JBuiltin _ => false
  end.

(** The nodes of a value, each element counted with its separator: the
    fuel the parser needs. *)
Fixpoint json_size (v : jsval) : nat :=
  match v with
  | JArr l => S (sum_list_with (fun x => S (json_size x)) l)
  | JObj ps => S (sum_list_with (fun '(_, x) => S (json_size x)) ps)
  | _ => 1
  end.

(** ** Lexical level *)

(** JSON's white space: tab, line feed, carriage return and space. *)
Definition json_ws (c : ascii) : bool :=
  match nat_of_ascii c with
  | 9 | 10 | 13 | 32 => true
  | _ => false
  end.

Fixpoint skip_ws (s : string) : string :=
  match s with
  | String c r => if json_ws c then skip_ws r else s
  | EmptyString => EmptyString
  end.

(** The rest of [s] after the prefix [p], if [s] starts with [p]. *)
Fixpoint strip_prefix (p s : string) : option string :=
  match p, s with
  | EmptyString, _ => Some s
  | String c p', String d s' => if Ascii.eqb c d then strip_prefix p' s' else None
  | String _ _, EmptyString => None
  end.

Definition hex_value (c : ascii) : option nat :=
  let n := nat_of_ascii c in
  if Nat.leb 48 n && Nat.leb n 57 then Some (n - 48)
  else if Nat.leb 97 n && Nat.leb n 102 then Some (n - 87)
  else if Nat.leb 65 n && Nat.leb n 70 then Some (n - 55)
  else None.

(** The code unit of a [\uXXXX] escape, when it fits in 8 bits. *)
Definition unicode_unit (a b c d : ascii) : option ascii :=
  match hex_value a, hex_value b, hex_value c, hex_value d with
  | Some x, Some y, Some z, Some w =>
      let n := ((x * 16 + y) * 16 + z) * 16 + w in
      if Nat.ltb n 256 then Some (ascii_of_nat n) else None
  | _, _, _, _ => None
  end.

(** The one-letter escapes: backslash followed by a quote, a backslash,
    a slash, or one of the letters b, f, n, r, t. *)
Definition escaped_char (c : ascii) : option ascii :=
  match nat_of_ascii c with
  | 34 => Some dquote
  | 92 => Some bslash
  | 47 => Some "/"%char
  | 98 => Some "008"%char
  | 102 => Some "012"%char
  | 110 => Some "010"%char
  | 114 => Some "013"%char
  | 116 => Some "009"%char
  | _ => None
  end.

(** The characters of a string literal after its opening quote, and
    the text after its closing quote.  A raw control character is a
    syntax error. *)
Fixpoint parse_chars (s : string) : option (string * string) :=
  match s with
  | EmptyString => None
  | String c r =>
      if Ascii.eqb c dquote then Some (EmptyString, r)
      else if Ascii.eqb c bslash then
        match r with
        | String e r1 =>
            if Ascii.eqb e "u"%char then
              match r1 with
              | String a (String b (String c' (String d r2))) =>
                  match unicode_unit a b c' d with
                  | Some x =>
                      match parse_chars r2 with
                      | Some (t, rest) => Some (String x t, rest)
                      | None => None
                      end
                  | None => None
                  end
              | _ => None
              end
            else
              match escaped_char e with
              | Some x =>
                  match parse_chars r1 with
                  | Some (t, rest) => Some (String x t, rest)
                  | None => None
                  end
              | None => None
              end
        | EmptyString => None
        end
      else if Nat.ltb (nat_of_ascii c) 32 then None
      else
        match parse_chars r with
        | Some (t, rest) => Some (String c t, rest)
        | None => None
        end
  end.

(** The characters a number token is made of. *)
Definition number_char (c : ascii) : bool :=
  match digit_value c with
  | Some _ => true
  | None =>
      match nat_of_ascii c with
      | 43 | 45 | 46 | 69 | 101 => true
      | _ => false
      end
  end.

Fixpoint span_number (s : string) : string * string :=
  match s with
  | String c r =>
      if number_char c then let (t, rest) := span_number r in (String c t, rest)
      else (EmptyString, s)
  | EmptyString => (EmptyString, EmptyString)
  end.

(** A number token is read when it is the canonical decimal of a safe
    integer: this rejects the tokens JSON forbids ([01], [+1], [1.],
    [--1]) and leaves fractions, exponents and [-0] outside the model. *)
Definition parse_number (s : string) : option (jsval * string) :=
  let (tok, rest) := span_number s in
  match NilZero.int_of_string tok with
  | Some d =>
      let n := Z.of_int d in
      if (z_to_decimal n === tok) && Z.leb (Z.abs n) max_safe
      then Some (JNum n, rest) else None
  | None => None
  end.

(** ** Objects *)

(** [CreateDataProperty(obj, k, v)]: a new key goes last, a known key
    keeps its place and takes the new value. *)
Fixpoint obj_set (k : string) (v : jsval) (ps : list (string * jsval))
    : list (string * jsval) :=
  match ps with
  | [] => [(k, v)]
  | (k', v') :: rest => if k' === k then (k, v) :: rest else (k', v') :: obj_set k v rest
  end.

Definition json_object (ps : list (string * jsval)) : option jsval :=
  if existsb (fun kv => index_like kv.1) ps then None
  else Some (JObj (fold_left (fun acc kv => obj_set kv.1 kv.2 acc) ps [])).

(** ** The parser *)

Fixpoint parse_value (fuel : nat) (s : string) {struct fuel} : option (jsval * string) :=
  match fuel with
  | O => None
  | S f =>
      match s with
      | EmptyString => None
      | String c r =>
          if Ascii.eqb c dquote then
            match parse_chars r with
            | Some (t, rest) => Some (JStr t, rest)
            | None => None
            end
          else if Ascii.eqb c "["%char then
            match strip_prefix "]" (skip_ws r) with
            | Some rest => Some (JArr [], rest)
            | None =>
                match parse_elements f (skip_ws r) with
                | Some (vs, rest) => Some (JArr vs, rest)
                | None => None
                end
            end
          else if Ascii.eqb c "{"%char then
            match strip_prefix "}" (skip_ws r) with
            | Some rest => Some (JObj [], rest)
            | None =>
                match parse_members f (skip_ws r) with
                | Some (ps, rest) =>
                    match json_object ps with
                    | Some o => Some (o, rest)
                    | None => None
                    end
                | None => None
                end
            end
          else
            match strip_prefix "null" s with
            | Some rest => Some (JNull, rest)
            | None =>
                match strip_prefix "true" s with
                | Some rest => Some (JBool true, rest)
                | None =>
                    match strip_prefix "false" s with
                    | Some rest => Some (JBool false, rest)
                    | None => parse_number s
                    end
                end
            end
      end
  end

(** The elements of an array after its [[] and white space, up to and
    including its []]. *)
with parse_elements (fuel : nat) (s : string) {struct fuel}
    : option (list jsval * string) :=
  match fuel with
  | O => None
  | S f =>
      match parse_value f s with
      | None => None
      | Some (v, r) =>
          match strip_prefix "," (skip_ws r) with
          | Some r' =>
              match parse_elements f (skip_ws r') with
              | Some (vs, rest) => Some (v :: vs, rest)
              | None => None
              end
          | None =>
              match strip_prefix "]" (skip_ws r) with
              | Some rest => Some ([v], rest)
              | None => None
              end
          end
      end
  end

(** The members of an object after its [{] and white space, up to and
    including its [}]. *)
with parse_members (fuel : nat) (s : string) {struct fuel}
    : option (list (string * jsval) * string) :=
  match fuel with
  | O => None
  | S f =>
      match strip_prefix (String dquote EmptyString) s with
      | None => None
      | Some r =>
          match parse_chars r with
          | None => None
          | Some (k, r1) =>
              match strip_prefix ":" (skip_ws r1) with
              | None => None
              | Some r2 =>
                  match parse_value f (skip_ws r2) with
                  | None => None
                  | Some (v, r3) =>
                      match strip_prefix "," (skip_ws r3) with
                      | Some r4 =>
                          match parse_members f (skip_ws r4) with
                          | Some (ps, rest) => Some ((k, v) :: ps, rest)
                          | None => None
                          end
                      | None =>
                          match strip_prefix "}" (skip_ws r3) with
                          | Some rest => Some ([(k, v)], rest)
                          | None => None
                          end
                      end
                  end
              end
          end
      end
  end.

(** [JSON.parse(text)]: one value between white space.  The fuel, one
    more than the length of the text, is never the limit: every call
    of the parser consumes a character. *)
Definition json_parse (text : string) : option jsval :=
  match parse_value (S (String.length text)) (skip_ws text) with
  | Some (v, rest) =>
      match skip_ws rest with
      | EmptyString => Some v
      | _ => None
      end
  | None => None
  end.

(** ** Unfolding equations of the parser *)

Lemma parse_elements_S (f : nat) (s : string) :
  parse_elements (S f) s =
    match parse_value f s with
    | None => None
    | Some (v, r) =>
        match strip_prefix "," (skip_ws r) with
        | Some r' =>
            match parse_elements f (skip_ws r') with
            | Some (vs, rest) => Some (v :: vs, rest)
            | None => None
            end
        | None =>
            match strip_prefix "]" (skip_ws r) with
            | Some rest => Some ([v], rest)
            | None => None
            end
        end
    end.
Proof. reflexivity. Qed.

(** ** The lexical level *)

(** Indentation: a string of spaces. *)
Fixpoint spaces (s : string) : bool :=
  match s with
  | EmptyString => true
  | String c r => Ascii.eqb c " "%char && spaces r
  end.

Lemma spaces_indent (ind : string) : spaces ind = true -> spaces (ind ++ "  ") = true.
Proof.
  induction ind as [|c ind IH]; [reflexivity|]. rewrite string_app_cons. simpl.
  intros [Hc H]%andb_prop. by rewrite Hc, IH.
Qed.

Lemma skip_ws_spaces (ind t : string) : spaces ind = true -> skip_ws (ind ++ t) = skip_ws t.
Proof.
  induction ind as [|c ind IH]; [reflexivity|]. rewrite string_app_cons. simpl.
  intros [Hc H]%andb_prop. apply Ascii.eqb_eq in Hc as ->. exact (IH H).
Qed.

Lemma skip_ws_nonws (c : ascii) (t : string) : json_ws c = false -> skip_ws (String c t) = String c t.
Proof. simpl. by intros ->. Qed.

Lemma strip_prefix_app (p t : string) : strip_prefix p (p ++ t) = Some t.
Proof.
  induction p as [|c p IH]; [reflexivity|]. rewrite string_app_cons. simpl.
  by rewrite Ascii.eqb_refl.
Qed.

(** A line break and an indentation are skipped. *)
Lemma skip_ws_indent (ind t : string) :
  spaces ind = true -> skip_ws (newline ++ ind ++ t) = skip_ws t.
Proof. intros H. exact (skip_ws_spaces ind t H). Qed.

(** ** String literals *)

(** Each escaped code unit is read back, whatever follows. *)
Lemma parse_chars_escape (c : ascii) (t : string) :
  parse_chars (json_escape c ++ t) =
    match parse_chars t with
    | Some (u, r) => Some (String c u, r)
    | None => None
    end.
Proof. destruct c as [[] [] [] [] [] [] [] []]; reflexivity. Qed.

Lemma parse_chars_quote (s rest : string) :
  parse_chars (json_escape_string s ++ String dquote rest) = Some (s, rest).
Proof.
  induction s as [|c s IH]; [reflexivity|]. cbn [json_escape_string].
  by rewrite string_app_assoc, parse_chars_escape, IH.
Qed.

(** ** Number tokens *)

Definition stops_number (s : string) : bool :=
  match s with
  | String c _ => negb (number_char c)
  | EmptyString => true
  end.

Fixpoint number_chars (s : string) : bool :=
  match s with
  | EmptyString => true
  | String c r => number_char c && number_chars r
  end.

Lemma span_number_app (tok rest : string) :
  number_chars tok = true -> stops_number rest = true ->
  span_number (tok ++ rest) = (tok, rest).
Proof.
  intros Ht Hr. induction tok as [|c tok IH].
  - destruct rest as [|c r]; [reflexivity|]. simpl in *.
    destruct (number_char c); [discriminate | reflexivity].
  - simpl in Ht. apply andb_prop in Ht as [Hc Ht].
    rewrite string_app_cons. simpl. by rewrite Hc, IH.
Qed.

Lemma uint_number_chars (u : Decimal.uint) : number_chars (NilEmpty.string_of_uint u) = true.
Proof. induction u; simpl; auto. Qed.

Lemma decimal_number_chars (n : Z) : number_chars (z_to_decimal n) = true.
Proof.
  unfold z_to_decimal, NilZero.string_of_int, NilZero.string_of_uint.
  destruct (Z.to_int n) as [u|u]; destruct u; simpl; rewrite ?uint_number_chars; reflexivity.
Qed.

Lemma to_int_nonnil (n : Z) : Z.to_int n <> Decimal.Pos Decimal.Nil /\ Z.to_int n <> Decimal.Neg Decimal.Nil.
Proof.
  destruct n as [|p|p]; simpl; split; try discriminate;
    intros [= H]; by apply (DecimalPos.Unsigned.to_uint_nonnil p).
Qed.

(** The decimal of a safe integer followed by a text that cannot
    continue a number token is read back. *)
Lemma parse_number_decimal (n : Z) (rest : string) :
  (Z.abs n <= max_safe)%Z -> stops_number rest = true ->
  parse_number (z_to_decimal n ++ rest) = Some (JNum n, rest).
Proof.
  intros Hn Hr. unfold parse_number.
  rewrite span_number_app by auto using decimal_number_chars.
  unfold z_to_decimal at 1. destruct (to_int_nonnil n) as [H1 H2].
  rewrite (NilZero.isi _ H1 H2). cbv zeta. rewrite DecimalZ.of_to, String.eqb_refl.
  apply Z.leb_le in Hn. by rewrite Hn.
Qed.

(** ** The first character of a printed value *)

(** A value starts with a character that is not white space and closes
    no array or object. *)
Definition value_head (c : ascii) : bool :=
  negb (json_ws c) && negb (Ascii.eqb c "]"%char) && negb (Ascii.eqb c "}"%char).

Definition number_head (c : ascii) : Prop := c = "-"%char \/ is_Some (digit_value c).

Lemma decimal_head (n : Z) : exists c t, z_to_decimal n = String c t /\ number_head c.
Proof.
  unfold z_to_decimal, NilZero.string_of_int, NilZero.string_of_uint, number_head.
  destruct (Z.to_int n) as [u|u]; destruct u; simpl;
    do 2 eexists; split; try reflexivity; try (left; reflexivity); right; eexists; reflexivity.
Qed.

Lemma number_head_value (c : ascii) (t : string) (f : nat) :
  number_head c -> parse_value (S f) (String c t) = parse_number (String c t).
Proof.
  intros [->|[d Hd]]; [reflexivity|].
  destruct c as [[] [] [] [] [] [] [] []]; try discriminate; reflexivity.
Qed.

Lemma number_head_value_head (c : ascii) : number_head c -> value_head c = true.
Proof.
  intros [->|[d Hd]]; [reflexivity|].
  destruct c as [[] [] [] [] [] [] [] []]; try discriminate; reflexivity.
Qed.

Lemma stringify_json_some (ind : string) (v : jsval) :
  is_json v = true -> exists s, json_stringify_at ind v = Some s.
Proof. destruct v as [| |[]| | | | | |]; simpl; try discriminate; eauto. Qed.

Lemma stringify_head (ind : string) (v : jsval) (s : string) :
  is_json v = true -> json_stringify_at ind v = Some s ->
  exists c t, s = String c t /\ value_head c = true.
Proof.
  destruct v as [| |[]|n| |l|ps| |]; simpl; intros Hj Hs; try discriminate;
    injection Hs as <-.
  1-3: eexists _, _; split; reflexivity.
  - destruct (decimal_head n) as (c & t & -> & Hc).
    eexists _, _; split; [reflexivity | by apply number_head_value_head].
  - eexists _, _; split; reflexivity.
  - destruct (json_block_head "[" "]" ind
      (map (fun x => default "null" (json_stringify_at (ind ++ "  ") x)) l)) as [r ->].
    eexists _, _; split; reflexivity.
  - match goal with |- context [json_block "{" "}" ind ?items] =>
      destruct (json_block_head "{" "}" ind items) as [r ->] end.
    eexists _, _; split; reflexivity.
Qed.

(** A printed value, after an indentation, is where the parser resumes. *)
Lemma skip_ws_value (ind : string) (v : jsval) (s t : string) :
  is_json v = true -> json_stringify_at ind v = Some s -> skip_ws (s ++ t) = (s ++ t).
Proof.
  intros Hj Hs. destruct (stringify_head ind v s Hj Hs) as (c & u & -> & Hc).
  rewrite string_app_cons. apply skip_ws_nonws.
  unfold value_head in Hc. destruct (json_ws c); [discriminate | reflexivity].
Qed.

(** ** Reading back printed arrays *)

(** What the round trip says of one value. *)
Definition roundtrips (v : jsval) : Prop :=
  forall ind s rest fuel,
    is_json v = true -> json_stringify_at ind v = Some s ->
    spaces ind = true -> stops_number rest = true -> json_size v <= fuel ->
    parse_value fuel (s ++ rest) = Some (v, rest).

Lemma parse_elements_items (l : list jsval) (ind rest : string) (fuel : nat) :
  Forall roundtrips l -> forallb is_json l = true -> l <> [] -> spaces ind = true ->
  sum_list_with (fun x => S (json_size x)) l <= fuel ->
  parse_elements fuel
    (String.concat ("," ++ newline ++ ind ++ "  ")
       (map (fun x => default "null" (json_stringify_at (ind ++ "  ") x)) l)
     ++ (newline ++ ind ++ "]" ++ rest)) = Some (l, rest).
Proof.
  intros Hrt Hj Hne Hsp. revert fuel. induction l as [|x l IH]; [done|].
  intros fuel Hf. apply Forall_cons in Hrt as [Hx Hrt].
  simpl in Hj. apply andb_prop in Hj as [Hjx Hj].
  destruct fuel as [|f]; [simpl in Hf; lia|]. rewrite parse_elements_S.
  destruct (stringify_json_some (ind ++ "  ") x Hjx) as [sx Hsx].
  pose proof (spaces_indent ind Hsp) as Hsp'.
  destruct l as [|y l].
  - cbn [map]. rewrite Hsx. cbn [default String.concat id].
    rewrite (Hx (ind ++ "  ") sx (newline ++ ind ++ "]" ++ rest) f Hjx Hsx Hsp' eq_refl)
      by (simpl in Hf; lia).
    rewrite skip_ws_indent by exact Hsp. reflexivity.
  - simpl in Hf.
    destruct (stringify_json_some (ind ++ "  ") y (proj1 (andb_prop _ _ Hj))) as [sy Hsy].
    remember (map (fun x => default "null" (json_stringify_at (ind ++ "  ") x)) (y :: l))
      as items eqn:Hitems.
    assert (Hhead : forall t, skip_ws (String.concat ("," ++ newline ++ ind ++ "  ") items ++ t)
                              = String.concat ("," ++ newline ++ ind ++ "  ") items ++ t).
    { intros t. subst items. cbn [map]. rewrite Hsy. cbn [default id].
      destruct (map _ l); [exact (skip_ws_value _ y _ t (proj1 (andb_prop _ _ Hj)) Hsy)|].
      change (String.concat ?sep (sy :: ?a :: ?r)) with (sy ++ sep ++ String.concat sep (a :: r)).
      rewrite string_app_assoc. exact (skip_ws_value _ y _ _ (proj1 (andb_prop _ _ Hj)) Hsy). }
    change (map ?F (x :: y :: l)) with (F x :: map F (y :: l)). cbv beta.
    rewrite Hsx. cbn [default id]. rewrite <- Hitems.
    assert (E : String.concat ("," ++ newline ++ ind ++ "  ") (sx :: items) =
                sx ++ ("," ++ newline ++ ind ++ "  ") ++
                  String.concat ("," ++ newline ++ ind ++ "  ") items)
      by (subst items; reflexivity).
    rewrite E, !string_app_assoc.
    match goal with |- context [parse_value f (sx ++ ?t)] =>
      rewrite (Hx (ind ++ "  ") sx t f Hjx Hsx Hsp' eq_refl) by lia end.
    change (skip_ws ("," ++ ?t)) with ("," ++ t). rewrite strip_prefix_app.
    rewrite skip_ws_indent by exact Hsp.
    change (skip_ws ("  " ++ ?t)) with (skip_ws t). rewrite Hhead.
    subst items. rewrite (IH Hrt Hj ltac:(done) f) by (simpl; lia). reflexivity.
Qed.

(** ** Reading back printed objects *)

(** The members [JSON.stringify] prints, as the local [members] of the
    object case. *)
Fixpoint obj_members (ind : string) (ps : list (string * jsval)) : list string :=
  match ps with
  | [] => []
  | (k, x) :: rest =>
      match json_stringify_at ind x with
      | Some sx => (json_quote k ++ ": " ++ sx) :: obj_members ind rest
      | None => obj_members ind rest
      end
  end.

Lemma stringify_obj (ind : string) (ps : list (string * jsval)) :
  json_stringify_at ind (JObj ps) =
    Some (json_block "{" "}" ind (obj_members (ind ++ "  ") ps)).
Proof.
  simpl. do 2 f_equal. induction ps as [|[k x] ps IH]; [reflexivity|].
  simpl. destruct (json_stringify_at (ind ++ "  ") x); [f_equal|]; exact IH.
Qed.

Lemma parse_members_quote (f : nat) (k Z : string) :
  parse_members (S f)
    (String dquote (json_escape_string k ++ String dquote (String ":" (String " " Z)))) =
  match parse_value f (skip_ws Z) with
  | None => None
  | Some (v, r3) =>
      match strip_prefix "," (skip_ws r3) with
      | Some r4 =>
          match parse_members f (skip_ws r4) with
          | Some (ps, rest) => Some ((k, v) :: ps, rest)
          | None => None
          end
      | None =>
          match strip_prefix "}" (skip_ws r3) with
          | Some rest => Some ([(k, v)], rest)
          | None => None
          end
      end
  end.
Proof. simpl. rewrite parse_chars_quote. reflexivity. Qed.

Lemma member_text (k sx T : string) :
  json_quote k ++ ": " ++ sx ++ T =
    String dquote (json_escape_string k ++ String dquote (String ":" (String " " (sx ++ T)))).
Proof. unfold json_quote. rewrite string_app_cons, string_app_assoc. reflexivity. Qed.

Lemma obj_members_cons (ind k : string) (x : jsval) (sx : string) (ps : list (string * jsval)) :
  json_stringify_at ind x = Some sx ->
  obj_members ind ((k, x) :: ps) = (json_quote k ++ ": " ++ sx) :: obj_members ind ps.
Proof. simpl. by intros ->. Qed.

Lemma parse_members_items (ps : list (string * jsval)) (ind rest : string) (fuel : nat) :
  Forall (fun kv => roundtrips kv.2) ps ->
  forallb (fun '(k, x) => negb (index_like k) && is_json x) ps = true ->
  ps <> [] -> spaces ind = true ->
  sum_list_with (fun '(_, x) => S (json_size x)) ps <= fuel ->
  parse_members fuel
    (String.concat ("," ++ newline ++ ind ++ "  ") (obj_members (ind ++ "  ") ps)
     ++ (newline ++ ind ++ "}" ++ rest)) = Some (ps, rest).
Proof.
  intros Hrt Hj Hne Hsp. revert fuel. induction ps as [|[k x] ps IH]; [done|].
  intros fuel Hf. apply Forall_cons in Hrt as [Hx Hrt]. simpl in Hx.
  simpl in Hj. apply andb_prop in Hj as [Hkx Hj]. apply andb_prop in Hkx as [_ Hjx].
  destruct fuel as [|f]; [simpl in Hf; lia|]. simpl in Hf.
  destruct (stringify_json_some (ind ++ "  ") x Hjx) as [sx Hsx].
  pose proof (spaces_indent ind Hsp) as Hsp'.
  rewrite (obj_members_cons _ _ _ _ _ Hsx).
  destruct ps as [|[k' y] ps].
  - cbn [obj_members String.concat].
    rewrite !string_app_assoc, member_text, parse_members_quote.
    rewrite (skip_ws_value _ x sx _ Hjx Hsx).
    rewrite (Hx (ind ++ "  ") sx (newline ++ ind ++ "}" ++ rest) f Hjx Hsx Hsp' eq_refl)
      by lia.
    rewrite skip_ws_indent by exact Hsp. reflexivity.
  - pose proof Hj as Hjtail.
    simpl in Hj. apply andb_prop in Hj as [Hky Hj']. apply andb_prop in Hky as [_ Hjy].
    destruct (stringify_json_some (ind ++ "  ") y Hjy) as [sy Hsy].
    rewrite (obj_members_cons _ _ _ _ _ Hsy).
    change (String.concat ?sep (?a :: ?b :: ?r)) with (a ++ sep ++ String.concat sep (b :: r)).
    rewrite !string_app_assoc, member_text, parse_members_quote.
    rewrite (skip_ws_value _ x sx _ Hjx Hsx).
    match goal with |- context [parse_value f (sx ++ ?t)] =>
      rewrite (Hx (ind ++ "  ") sx t f Hjx Hsx Hsp' eq_refl) by lia end.
    change (skip_ws ("," ++ ?t)) with ("," ++ t). rewrite strip_prefix_app.
    rewrite skip_ws_indent by exact Hsp.
    change (skip_ws ("  " ++ ?t)) with (skip_ws t).
    assert (Hhead : forall t, skip_ws (String.concat ("," ++ newline ++ ind ++ "  ")
                     ((json_quote k' ++ ": " ++ sy) :: obj_members (ind ++ "  ") ps) ++ t) =
                   String.concat ("," ++ newline ++ ind ++ "  ")
                     ((json_quote k' ++ ": " ++ sy) :: obj_members (ind ++ "  ") ps) ++ t).
    { intros t. destruct (obj_members (ind ++ "  ") ps) as [|i rs];
        [cbn [String.concat] | change (String.concat ?sep (?a :: ?b :: ?r)) with
              (a ++ sep ++ String.concat sep (b :: r))];
        rewrite !string_app_assoc, member_text; reflexivity. }
    rewrite Hhead.
    rewrite <- (obj_members_cons _ _ _ _ _ Hsy).
    rewrite (IH Hrt Hjtail ltac:(done) f) by (simpl in *; lia).
    reflexivity.
Qed.

(** A fresh key goes last; keys without repetition are read in order. *)
Lemma obj_set_fresh (k : string) (v : jsval) (acc : list (string * jsval)) :
  k ∉ map fst acc -> obj_set k v acc = (acc ++ [(k, v)])%list.
Proof.
  induction acc as [|[k' v'] acc IH]; [done|]. simpl. intros Hn.
  destruct (String.eqb_spec k' k) as [->|Hne]; [set_solver|].
  f_equal. apply IH. set_solver.
Qed.

Lemma fold_obj_set (acc ps : list (string * jsval)) :
  NoDup (map fst (acc ++ ps)) ->
  fold_left (fun acc kv => obj_set kv.1 kv.2 acc) ps acc = (acc ++ ps)%list.
Proof.
  revert acc. induction ps as [|[k v] ps IH]; intros acc Hnd; simpl.
  - by rewrite app_nil_r.
  - rewrite obj_set_fresh.
    + rewrite IH; [by rewrite <- app_assoc|]. by rewrite <- app_assoc.
    + rewrite map_app in Hnd. apply NoDup_app in Hnd as (_ & Hdisj & _).
      intros Hk. apply (Hdisj k Hk). simpl. set_solver.
Qed.

Lemma json_object_members (ps : list (string * jsval)) :
  forallb (fun '(k, x) => negb (index_like k) && is_json x) ps = true ->
  NoDup (map fst ps) -> json_object ps = Some (JObj ps).
Proof.
  intros Hj Hnd. unfold json_object.
  replace (existsb _ ps) with false.
  - by rewrite (fold_obj_set [] ps Hnd).
  - symmetry. induction ps as [|[k x] ps IH]; [done|]. simpl in *.
    apply andb_prop in Hj as [Hkx Hj]. apply andb_prop in Hkx as [Hk _].
    apply negb_true_iff in Hk. rewrite Hk. apply IH; [exact Hj|]. by inversion Hnd.
Qed.

Lemma json_block_cons (opn cls ind : string) (items : list string) :
  items <> [] ->
  json_block opn cls ind items =
    opn ++ newline ++ (ind ++ "  ") ++ String.concat ("," ++ newline ++ ind ++ "  ") items
        ++ newline ++ ind ++ cls.
Proof. destruct items; [done | reflexivity]. Qed.

(** The items of a block start with the first item's character. *)
Lemma concat_head (sep i T : string) (rs : list string) (c : ascii) (t : string) :
  i = String c t -> exists u, String.concat sep (i :: rs) ++ T = String c u.
Proof. intros ->. destruct rs; eexists; reflexivity. Qed.

Lemma value_head_stops (c : ascii) (u : string) :
  value_head c = true ->
  skip_ws (String c u) = String c u /\
  strip_prefix "]" (String c u) = None /\ strip_prefix "}" (String c u) = None.
Proof.
  unfold value_head. intros H. apply andb_prop in H as [H H3]. apply andb_prop in H as [H1 H2].
  apply negb_true_iff in H1, H2, H3. cbn [skip_ws strip_prefix].
  rewrite H1, (Ascii.eqb_sym "]"), (Ascii.eqb_sym "}"), H2, H3. done.
Qed.

Lemma map_items (ind : string) (x : jsval) (sx : string) (l : list jsval) :
  json_stringify_at ind x = Some sx ->
  map (fun y => default "null" (json_stringify_at ind y)) (x :: l) =
    sx :: map (fun y => default "null" (json_stringify_at ind y)) l.
Proof. simpl. by intros ->. Qed.

(** ** The round trip *)

Lemma parse_stringify (v : jsval) : roundtrips v.
Proof.
  induction v as [| |b|n|s0|l IHl|ps IHps|f0|b0] using jsval_nested_ind;
    intros ind s rest fuel Hj Hs Hsp Hst Hf; simpl in Hj; try discriminate;
    (destruct fuel as [|f]; [simpl in Hf; lia|]);
    [injection Hs as <- | destruct b; injection Hs as <- | injection Hs as <-
    | injection Hs as <- | injection Hs as <- | rewrite stringify_obj in Hs; injection Hs as <-].
  - reflexivity.
  - reflexivity.
  - reflexivity.
  - destruct (decimal_head n) as (c & t & Hct & Hc). rewrite Hct, string_app_cons.
    rewrite (number_head_value c _ f Hc), <- string_app_cons, <- Hct.
    apply parse_number_decimal; [by apply Z.leb_le | exact Hst].
  - unfold json_quote. rewrite string_app_cons, string_app_assoc.
    change (String dquote EmptyString ++ rest) with (String dquote rest).
    change (parse_value (S f) (String dquote ?X)) with
      (match parse_chars X with Some (t, r) => Some (JStr t, r) | None => None end).
    by rewrite parse_chars_quote.
  - destruct l as [|x l']; [reflexivity|].
    pose proof Hj as Hjx. simpl in Hjx. apply andb_prop in Hjx as [Hjx _].
    destruct (stringify_json_some (ind ++ "  ") x Hjx) as [sx Hsx].
    pose proof (parse_elements_items (x :: l') ind rest f IHl Hj ltac:(done) Hsp
                  ltac:(simpl in *; lia)) as He.
    rewrite (map_items _ _ _ _ Hsx) in He |- *.
    rewrite json_block_cons by done. rewrite !string_app_assoc.
    change (parse_value (S f) ("[" ++ ?X)) with
      (match strip_prefix "]" (skip_ws X) with
       | Some r => Some (JArr [], r)
       | None => match parse_elements f (skip_ws X) with
                 | Some (vs, r) => Some (JArr vs, r)
                 | None => None
                 end
       end).
    rewrite skip_ws_indent by exact Hsp. change (skip_ws ("  " ++ ?t)) with (skip_ws t).
    destruct (stringify_head _ x sx Hjx Hsx) as (c & t & Hct & Hc).
    match goal with |- context [skip_ws (String.concat ?sep (sx :: ?rs) ++ ?T)] =>
      destruct (concat_head sep sx T rs c t Hct) as [u Hu];
      destruct (value_head_stops c u Hc) as (E1 & E2 & _);
      rewrite <- Hu in E1, E2; rewrite E1, E2, He end.
    reflexivity.
  - destruct ps as [|[k x] ps']; [reflexivity|].
    apply andb_prop in Hj as [Hjf Hnd]. apply bool_decide_eq_true in Hnd.
    pose proof Hjf as Hjx. simpl in Hjx. apply andb_prop in Hjx as [Hjx _].
    apply andb_prop in Hjx as [_ Hjx].
    destruct (stringify_json_some (ind ++ "  ") x Hjx) as [sx Hsx].
    pose proof (parse_members_items ((k, x) :: ps') ind rest f IHps Hjf ltac:(done) Hsp
                  ltac:(simpl in *; lia)) as He.
    rewrite json_block_cons; [|by rewrite (obj_members_cons _ _ _ _ _ Hsx)].
    rewrite (obj_members_cons _ _ _ _ _ Hsx) in He |- *. rewrite !string_app_assoc.
    change (parse_value (S f) ("{" ++ ?X)) with
      (match strip_prefix "}" (skip_ws X) with
       | Some r => Some (JObj [], r)
       | None => match parse_members f (skip_ws X) with
                 | Some (ps, r) => match json_object ps with
                                   | Some o => Some (o, r)
                                   | None => None
                                   end
                 | None => None
                 end
       end).
    rewrite skip_ws_indent by exact Hsp. change (skip_ws ("  " ++ ?t)) with (skip_ws t).
    assert (Hct : json_quote k ++ ": " ++ sx =
                  String dquote ((json_escape_string k ++ String dquote EmptyString) ++ ": " ++ sx))
      by (unfold json_quote; apply string_app_cons).
    match goal with |- context [skip_ws (String.concat ?sep (?i :: ?rs) ++ ?T)] =>
      destruct (concat_head sep i T rs _ _ Hct) as [u Hu];
      destruct (value_head_stops dquote u eq_refl) as (E1 & _ & E2);
      rewrite <- Hu in E1, E2; rewrite E1, E2, He end.
    by rewrite json_object_members.
Qed.

(** ** The fuel of [json_parse] is enough *)

Lemma concat_length (sep : string) (items : list string) :
  sum_list_with (fun i => String.length i + String.length sep) items <=
    String.length (String.concat sep items) + String.length sep.
Proof.
  induction items as [|i [|j r] IH]; [simpl; lia | simpl; lia|].
  change (String.concat sep (i :: j :: r)) with (i ++ sep ++ String.concat sep (j :: r)).
  rewrite !string_length_app. simpl in *. lia.
Qed.

(** What the bound says of one value. *)
Definition sized (v : jsval) : Prop :=
  forall ind s, is_json v = true -> json_stringify_at ind v = Some s ->
    json_size v <= String.length s.

Lemma block_length (opn cls ind : string) (items : list string) :
  items <> [] -> String.length opn = 1 -> String.length cls = 1 ->
  S (sum_list_with (fun i => String.length i + String.length ("," ++ newline ++ ind ++ "  ")) items)
    <= String.length (json_block opn cls ind items).
Proof.
  intros Hne Ho Hc. rewrite json_block_cons by exact Hne.
  pose proof (concat_length ("," ++ newline ++ ind ++ "  ") items).
  rewrite !string_length_app in *. simpl in *. lia.
Qed.

Lemma size_le_length (v : jsval) : sized v.
Proof.
  induction v as [| |b|n|s0|l IHl|ps IHps|f0|b0] using jsval_nested_ind;
    intros ind s Hj Hs; simpl in Hj; try discriminate;
    [injection Hs as <- | destruct b; injection Hs as <- | injection Hs as <-
    | injection Hs as <- | injection Hs as <- | rewrite stringify_obj in Hs; injection Hs as <-].
  - simpl; lia.
  - simpl; lia.
  - simpl; lia.
  - destruct (decimal_head n) as (c & t & -> & _). simpl. lia.
  - simpl. lia.
  - destruct l as [|x l']; [simpl; lia|].
    match goal with |- _ <= String.length (json_block _ _ _ ?items) =>
      assert (Hne : items <> []) by done;
      pose proof (block_length "[" "]" ind items Hne eq_refl eq_refl) as Hb end.
    rewrite sum_list_with_map in Hb.
    change (json_size (JArr (x :: l'))) with (S (sum_list_with (fun y => S (json_size y)) (x :: l'))).
    enough (sum_list_with (fun y => S (json_size y)) (x :: l') <=
            sum_list_with (fun y => String.length (default "null" (json_stringify_at (ind ++ "  ") y))
                             + String.length ("," ++ newline ++ ind ++ "  ")) (x :: l')) by lia.
    apply sum_list_with_le. apply Forall_forall. intros y Hy.
    apply forallb_forall with (x := y) in Hj; [|by apply list_elem_of_In].
    destruct (stringify_json_some (ind ++ "  ") y Hj) as [sy Hsy]. rewrite Hsy.
    rewrite Forall_forall in IHl. specialize (IHl y Hy (ind ++ "  ") sy Hj Hsy).
    rewrite string_length_app. simpl. lia.
  - destruct ps as [|[k x] ps']; [simpl; lia|].
    apply andb_prop in Hj as [Hj _].
    assert (Hsum : forall (w : nat) qs, 1 <= w -> Forall (fun kv => sized kv.2) qs ->
      forallb (fun '(k, x) => negb (index_like k) && is_json x) qs = true ->
      sum_list_with (fun '(_, y) => S (json_size y)) qs <=
      sum_list_with (fun i => String.length i + w) (obj_members (ind ++ "  ") qs)).
    { intros w. induction qs as [|[k' y] qs IH]; intros Hw Hq Hqj; [done|].
      apply Forall_cons in Hq as [Hy Hq]. simpl in Hqj.
      apply andb_prop in Hqj as [Hky Hqj]. apply andb_prop in Hky as [_ Hjy].
      destruct (stringify_json_some (ind ++ "  ") y Hjy) as [sy Hsy].
      rewrite (obj_members_cons _ _ _ _ _ Hsy). specialize (Hy (ind ++ "  ") sy Hjy Hsy).
      specialize (IH Hw Hq Hqj). simpl in *. rewrite !string_length_app. simpl. lia. }
    pose proof (Hsum (String.length ("," ++ newline ++ ind ++ "  ")) _
                  ltac:(simpl; lia) IHps Hj) as Hs.
    apply andb_prop in Hj as [Hkx _]. apply andb_prop in Hkx as [_ Hjx].
    destruct (stringify_json_some (ind ++ "  ") x Hjx) as [sx Hsx].
    pose proof (block_length "{" "}" ind (obj_members (ind ++ "  ") ((k, x) :: ps'))
                  ltac:(by rewrite (obj_members_cons _ _ _ _ _ Hsx)) eq_refl eq_refl).
    change (json_size (JObj ((k, x) :: ps'))) with
      (S (sum_list_with (fun '(_, y) => S (json_size y)) ((k, x) :: ps'))). lia.
Qed.

(** The round trip of the development: [JSON.parse] reads back what
    [JSON.stringify(v, null, 2)] prints, for every JSON value. *)
Lemma json_parse_stringify (v : jsval) (s : string) :
  is_json v = true -> json_stringify v = Some s -> json_parse s = Some v.
Proof.
  intros Hj Hs. unfold json_parse.
  pose proof (skip_ws_value "" v s "" Hj Hs) as Hw. rewrite string_app_nil_r in Hw.
  pose proof (size_le_length v "" s Hj Hs) as Hl.
  pose proof (parse_stringify v "" s "" (S (String.length s)) Hj Hs eq_refl eq_refl
                ltac:(lia)) as Hp.
  rewrite string_app_nil_r in Hp. by rewrite Hw, Hp.
Qed.
