(* ===== verification/MapWidget.v ===== *)
(** * The map widget (src/static/js/map.js)

    [enhanceAddress] (lines 51-57) turns the text of a [.locations]
    element into the address given to the geocoder: [None] is the
    script's [null] for the two sentinels ["Home"] and ["Online"], a text
    without a comma gets the campus suffix, any other text is returned as
    it is.

    Module [Widget] holds the state of the page (markers, requests in
    flight, route, alerts, form) and [widget_step], one event of the
    page or of a provider.  Its proofs cover every interleaving of the
    answers: the titles of the markers, the completion of [initMap] when
    every request is answered, in order or along any schedule, and the
    route and geolocation callbacks. *)

From stdpp Require Import base list strings.
From Stdlib Require Import String Ascii ZArith Lia.
From S2P Require Import Prelude JsString.
Open Scope js_scope.
Open Scope string_scope.

Module Address.

(** The suffix of line 54. *)
Definition campus_suffix : string := ", Minneapolis, MN 55455, USA".

(** The two non-physical locations of line 52. *)
Definition sentinels : list string := ["Home"; "Online"].

(** map.js lines 51-57. *)
Definition enhanceAddress (address : string) : option string :=
  if existsb (fun e => e === address) sentinels then None
  else if negb (js_includes address ",") then Some (address ++ campus_suffix)
  else Some address.

(** ** Lemmas *)

Lemma js_includes_app_r (a b sub : string) :
  js_includes b sub = true -> js_includes (a ++ b) sub = true.
Proof.
  intros H. induction a as [|c a IH]; simpl; [exact H|].
  rewrite IH. apply orb_true_r.
Qed.

Lemma campus_suffix_comma : js_includes campus_suffix "," = true.
Proof. reflexivity. Qed.

Lemma is_sentinel_iff (a : string) :
  existsb (fun e => e === a) sentinels = true <-> In a sentinels.
Proof.
  apply existsb_eqb_In.
Qed.

Lemma comma_not_sentinel (a : string) :
  js_includes a "," = true -> existsb (fun e => e === a) sentinels = false.
Proof.
  intros H. apply not_true_is_false. rewrite is_sentinel_iff.
  unfold sentinels. simpl. intros [<-|[<-|[]]]; discriminate.
Qed.

(** ** Properties *)

(** C13: [enhanceAddress] answers [null] exactly on the two sentinels
    ["Home"] and ["Online"]. *)
Theorem enhanceAddress_null_iff (a : string) :
  enhanceAddress a = None <-> a = "Home" \/ a = "Online".
Proof.
  unfold enhanceAddress.
  destruct (existsb _ sentinels) eqn:E.
  - apply is_sentinel_iff in E. unfold sentinels in E. simpl in E.
    intuition congruence.
  - assert (~ In a sentinels) as Hn
      by (rewrite <- is_sentinel_iff; congruence).
    unfold sentinels in Hn; simpl in Hn.
    destruct (negb _); split; try discriminate; intuition congruence.
Qed.

(** C14: on a text that is not a sentinel, [enhanceAddress] returns the
    text itself when it contains a comma and the text followed by
    [", Minneapolis, MN 55455, USA"] otherwise. *)
Theorem enhanceAddress_spec (a : string) :
  a <> "Home" -> a <> "Online" ->
  enhanceAddress a =
    Some (if js_includes a "," then a else a ++ campus_suffix).
Proof.
  intros H1 H2. unfold enhanceAddress.
  replace (existsb _ sentinels) with false.
  - by destruct (js_includes a ",").
  - symmetry. apply not_true_is_false. rewrite is_sentinel_iff.
    unfold sentinels. simpl. intuition congruence.
Qed.

(** C15: the address [enhanceAddress] produces always contains a comma,
    and enhancing it again leaves it unchanged. *)
Theorem enhanceAddress_idempotent (a r : string) :
  enhanceAddress a = Some r ->
  js_includes r "," = true /\ enhanceAddress r = Some r.
Proof.
  unfold enhanceAddress.
  destruct (existsb _ sentinels); [discriminate|].
  destruct (js_includes a ",") eqn:Hc; cbn [negb]; intros [= <-].
  - split; [exact Hc|]. rewrite comma_not_sentinel by exact Hc.
    by rewrite Hc.
  - assert (Hr : js_includes (a ++ campus_suffix) "," = true)
      by (apply js_includes_app_r, campus_suffix_comma).
    split; [exact Hr|]. rewrite comma_not_sentinel by exact Hr.
    by rewrite Hr.
Qed.

Lemma enhanceAddress_idempotent_witness :
  enhanceAddress "Keller Hall 3-115" =
    Some "Keller Hall 3-115, Minneapolis, MN 55455, USA" /\
  js_includes "Keller Hall 3-115, Minneapolis, MN 55455, USA" "," = true /\
  enhanceAddress "Keller Hall 3-115, Minneapolis, MN 55455, USA" =
    Some "Keller Hall 3-115, Minneapolis, MN 55455, USA".
Proof.
  split; [reflexivity|].
  apply (enhanceAddress_idempotent "Keller Hall 3-115"). reflexivity.
Defined.

Lemma enhanceAddress_spec_witness :
  enhanceAddress "123 Main St, City, ST" = Some "123 Main St, City, ST".
Proof.
  apply (enhanceAddress_spec "123 Main St, City, ST"); discriminate.
Defined.

End Address.

(** * The widget's event loop (map.js lines 1-49 and 59-84)

    [initMap] starts one geocoding request per [.locations] element, all
    in flight at once; each settles on its own and, when it resolves with
    a first result, creates a marker with an info window.  A submission
    of [#map_search] asks for the position once; when the position
    arrives, the callback reads the destination and the checked travel
    mode and asks for a route; the reply replaces the displayed route or
    raises an alert.  The positions and routes the provider returns are
    the types of the Section's context. *)

Module Widget.
Import Address.

(** [google.maps.TravelMode], modelled from the API's documentation. *)
Inductive travel_mode : Type := BICYCLING | DRIVING | TRANSIT | TWO_WHEELER | WALKING.

(** [google.maps.TravelMode[name]]: [None] is [undefined]. *)
Definition travel_mode_of (name : string) : option travel_mode :=
  if name === "BICYCLING" then Some BICYCLING
  else if name === "DRIVING" then Some DRIVING
  else if name === "TRANSIT" then Some TRANSIT
  else if name === "TWO_WHEELER" then Some TWO_WHEELER
  else if name === "WALKING" then Some WALKING
  else None.

Section Widget.
Context {latlng route : Type}.

Record marker : Type := mkMarker {
  m_title : string;          (** line 26: the trimmed text *)
  m_position : latlng;       (** line 25: the first result *)
  m_window_open : bool       (** the info window of lines 30-35 *)
}.

Record route_request : Type := mkRouteRequest {
  r_origin : latlng;
  r_destination : string;
  r_mode : option travel_mode
}.

Record widget : Type := mkWidget {
  markers : list marker;                        (** line 4 *)
  geocoding : list (string * option string);    (** requests in flight: text, address *)
  geocode_errors : list string;                 (** line 40: texts logged *)
  position_requests : nat;                      (** geolocation requests in flight *)
  routing : list route_request;                 (** route requests in flight *)
  directions : option route;                    (** what the renderer shows *)
  alerts : list string;                         (** alerts raised, in order *)
  destination_value : string;                   (** [#destination] *)
  checked_mode : option string;                 (** the checked [direction] radio *)
  geolocation_supported : bool                  (** [navigator.geolocation] *)
}.

Inductive widget_event : Type :=
| GeocodeResolved (i : nat) (results : list latlng)
| GeocodeRejected (i : nat)
| Submit
| PositionFound (p : latlng)
| PositionFailed
| RouteReply (i : nat) (status : string) (response : route)
| EditDestination (s : string)
| CheckMode (v : string)
| MarkerOver (i : nat)
| MarkerOut (i : nat).

(** Lines 16-19: the request of one [.locations] element. *)
Definition geocode_request (text : string) : string * option string :=
  let rawText := js_trim text in (rawText, enhanceAddress rawText).

(** Lines 6-49 from the texts of the [.locations] elements and the
    state of the form. *)
Definition initMap (texts : list string) (dest : string) (mode : option string)
    (supported : bool) : widget :=
  mkWidget [] (map geocode_request texts) [] 0 [] None [] dest mode supported.

Definition set_markers (w : widget) (ms : list marker) : widget :=
  mkWidget ms (geocoding w) (geocode_errors w) (position_requests w) (routing w)
    (directions w) (alerts w) (destination_value w) (checked_mode w)
    (geolocation_supported w).

(** Lines 21-41 when request [i] settles. *)
Definition geocode_settled (w : widget) (i : nat) (results : option (list latlng))
    : option widget :=
  match geocoding w !! i with
  | None => None
  | Some (rawText, _) =>
      let rest := delete i (geocoding w) in
      Some (match results with
            | Some (p :: _) =>
                mkWidget (markers w ++ [mkMarker rawText p false]) rest
                  (geocode_errors w) (position_requests w) (routing w)
                  (directions w) (alerts w) (destination_value w)
                  (checked_mode w) (geolocation_supported w)
            | Some [] =>
                mkWidget (markers w) rest (geocode_errors w) (position_requests w)
                  (routing w) (directions w) (alerts w) (destination_value w)
                  (checked_mode w) (geolocation_supported w)
            | None =>
                mkWidget (markers w) rest (geocode_errors w ++ [rawText])
                  (position_requests w) (routing w) (directions w) (alerts w)
                  (destination_value w) (checked_mode w) (geolocation_supported w)
            end)
  end.

Definition add_alert (w : widget) (a : string) : widget :=
  mkWidget (markers w) (geocoding w) (geocode_errors w) (position_requests w)
    (routing w) (directions w) (alerts w ++ [a]) (destination_value w)
    (checked_mode w) (geolocation_supported w).

Definition set_position_requests (w : widget) (n : nat) : widget :=
  mkWidget (markers w) (geocoding w) (geocode_errors w) n
    (routing w) (directions w) (alerts w) (destination_value w)
    (checked_mode w) (geolocation_supported w).

(** Lines 45-48 and 59-84 up to the request of the position. *)
Definition calculateAndDisplayRoute (w : widget) : widget :=
  if geolocation_supported w
  then set_position_requests w (S (position_requests w))
  else add_alert w "Error: Browser doesn't support geolocation.".

(** Lines 62-78: the success callback of the position; with no checked
    radio, line 65 throws and nothing else happens. *)
Definition position_found (w : widget) (p : latlng) : widget :=
  let w' := set_position_requests w (pred (position_requests w)) in
  match checked_mode w with
  | None => w'
  | Some v =>
      let req := mkRouteRequest p (destination_value w)
                   (travel_mode_of (js_to_upper v)) in
      mkWidget (markers w') (geocoding w') (geocode_errors w')
        (position_requests w') (routing w' ++ [req]) (directions w')
        (alerts w') (destination_value w') (checked_mode w')
        (geolocation_supported w')
  end.

(** Lines 71-77: the reply to route request [i]. *)
Definition route_reply (w : widget) (i : nat) (status : string) (response : route)
    : option widget :=
  match routing w !! i with
  | None => None
  | Some _ =>
      let rest := delete i (routing w) in
      Some (if status === "OK"
            then mkWidget (markers w) (geocoding w) (geocode_errors w)
                   (position_requests w) rest (Some response) (alerts w)
                   (destination_value w) (checked_mode w) (geolocation_supported w)
            else mkWidget (markers w) (geocoding w) (geocode_errors w)
                   (position_requests w) rest (directions w)
                   (alerts w ++ ["Directions request failed: " ++ status])
                   (destination_value w) (checked_mode w) (geolocation_supported w))
  end.

(** Lines 34-35: the listeners of marker [i]. *)
Definition set_window (w : widget) (i : nat) (b : bool) : widget :=
  set_markers w (alter (fun m => mkMarker (m_title m) (m_position m) b) i (markers w)).

Definition widget_step (w : widget) (e : widget_event) : option widget :=
  match e with
  | GeocodeResolved i results => geocode_settled w i (Some results)
  | GeocodeRejected i => geocode_settled w i None
  | Submit => Some (calculateAndDisplayRoute w)
  | PositionFound p =>
      if Nat.eqb (position_requests w) 0 then None else Some (position_found w p)
  | PositionFailed =>
      if Nat.eqb (position_requests w) 0 then None
      else Some (add_alert (set_position_requests w (pred (position_requests w)))
                   "Error: Geolocation failed.")
  | RouteReply i status response => route_reply w i status response
  | EditDestination s =>
      Some (mkWidget (markers w) (geocoding w) (geocode_errors w)
              (position_requests w) (routing w) (directions w) (alerts w) s
              (checked_mode w) (geolocation_supported w))
  | CheckMode v =>
      Some (mkWidget (markers w) (geocoding w) (geocode_errors w)
              (position_requests w) (routing w) (directions w) (alerts w)
              (destination_value w) (Some v) (geolocation_supported w))
  | MarkerOver i => Some (set_window w i true)
  | MarkerOut i => Some (set_window w i false)
  end.

Fixpoint widget_run (w : widget) (es : list widget_event) : option widget :=
  match es with
  | [] => Some w
  | e :: rest => match widget_step w e with
                 | Some w' => widget_run w' rest
                 | None => None
                 end
  end.

End Widget.
End Widget.

Module WidgetProofs.
Import Address Widget.

Section WidgetProofs.
Context {latlng route : Type}.
Implicit Types (w : @widget latlng route).

(** Every text in play: the titles of the markers, the texts of the
    requests in flight and the texts logged as failed. *)
Definition texts_in_play w : list string :=
  ((m_title <$> markers w) ++ (fst <$> geocoding w) ++ geocode_errors w)%list.

Lemma titles_set_window w (i : nat) (b : bool) :
  m_title <$> markers (set_window w i b) = m_title <$> markers w.
Proof.
  unfold set_window, set_markers; simpl. generalize (markers w) as ms.
  induction i as [|j IH]; intros [|m ms]; simpl; try reflexivity.
  f_equal. apply IH.
Qed.

Lemma texts_in_play_settled w w' (i : nat) (r : option (list latlng)) :
  geocode_settled w i r = Some w' -> texts_in_play w' ⊆+ texts_in_play w.
Proof.
  unfold geocode_settled, texts_in_play.
  destruct (geocoding w !! i) as [[raw a]|] eqn:Hi; [|discriminate].
  pose proof (delete_Permutation _ _ _ Hi) as Hp.
  assert (Hf : fst <$> geocoding w ≡ₚ raw :: (fst <$> delete i (geocoding w)))
    by (rewrite Hp at 1; reflexivity).
  intros [= <-]. destruct r as [[|p ps]|]; simpl; rewrite Hf.
  - apply submseteq_app; [done|]. apply submseteq_app; [|done].
    by apply submseteq_cons.
  - rewrite fmap_app, <- app_assoc. simpl. done.
  - apply Permutation_submseteq. solve_Permutation.
Qed.

Lemma texts_in_play_step w w' (e : @widget_event latlng route) :
  widget_step w e = Some w' -> texts_in_play w' ⊆+ texts_in_play w.
Proof.
  destruct e; simpl.
  - apply texts_in_play_settled.
  - apply texts_in_play_settled.
  - intros [= <-]. unfold calculateAndDisplayRoute.
    by destruct (geolocation_supported w).
  - destruct (Nat.eqb _ _); [discriminate|]. intros [= <-].
    unfold position_found. by destruct (checked_mode w).
  - destruct (Nat.eqb _ _); [discriminate|]. by intros [= <-].
  - unfold route_reply. destruct (routing w !! i); [|discriminate].
    intros [= <-]. by destruct (String.eqb_spec status "OK").
  - by intros [= <-].
  - by intros [= <-].
  - intros [= <-]. unfold texts_in_play. by rewrite titles_set_window.
  - intros [= <-]. unfold texts_in_play. by rewrite titles_set_window.
Qed.

(** C16: whatever the order in which the geocoding requests settle and
    whatever else happens, every marker carries the trimmed text of a
    distinct [.locations] element: the titles of the markers, with the
    texts still in flight and those logged as failed, form a
    sub-multiset of the trimmed texts of the page. *)
Theorem markers_from_locations (texts : list string) (dest : string)
    (mode : option string) (supported : bool) (es : list widget_event)
    (w : @widget latlng route) :
  widget_run (initMap texts dest mode supported) es = Some w ->
  ((m_title <$> markers w) ++ (fst <$> geocoding w) ++ geocode_errors w)%list
    ⊆+ js_trim <$> texts.
Proof.
  fold (texts_in_play w).
  assert (H0 : texts_in_play (@initMap latlng route texts dest mode supported)
                 ⊆+ js_trim <$> texts).
  { unfold texts_in_play, initMap. simpl.
    rewrite app_nil_r, <- list_fmap_compose. done. }
  revert H0. generalize (@initMap latlng route texts dest mode supported).
  induction es as [|e es IH]; intros w0 H0; simpl.
  - by intros [= <-].
  - destruct (widget_step w0 e) as [w1|] eqn:Hs; [|discriminate].
    apply IH. etrans; [apply (texts_in_play_step _ _ _ Hs) | exact H0].
Qed.

(** C27: the sentinels are not excluded from geocoding: a [.locations]
    element whose trimmed text is ["Home"] or ["Online"] still gets a
    geocoding request, with the address [null]. *)
Theorem sentinels_still_geocoded (texts : list string) (dest : string)
    (mode : option string) (supported : bool) (t : string) :
  t ∈ texts -> js_trim t = "Home" \/ js_trim t = "Online" ->
  (js_trim t, None) ∈ geocoding (@initMap latlng route texts dest mode supported).
Proof.
  intros Ht Hs. simpl. apply list_elem_of_fmap. exists t. split; [|exact Ht].
  unfold geocode_request. f_equal. by destruct Hs as [-> | ->].
Qed.

(** C17: a reply to a route request in flight takes it out of flight;
    with status ["OK"] it replaces the displayed route and raises no
    alert, with any other status it keeps the displayed route and raises
    exactly the alert ["Directions request failed: " + status]. *)
Theorem route_reply_spec w (i : nat) (status : string) (resp : route)
    (r : @route_request latlng) :
  routing w !! i = Some r ->
  exists w', route_reply w i status resp = Some w' /\
    routing w' = delete i (routing w) /\
    (status = "OK" -> directions w' = Some resp /\ alerts w' = alerts w) /\
    (status <> "OK" -> directions w' = directions w /\
       alerts w' = (alerts w ++ [("Directions request failed: " ++ status)%string])%list).
Proof.
  intros Hi. unfold route_reply. rewrite Hi.
  eexists; split; [reflexivity|].
  destruct (String.eqb_spec status "OK"); simpl;
    repeat split; try reflexivity; congruence.
Qed.

(** C25: with two route requests in flight, the older may be answered
    last, and then the route it gets is the one displayed, not the
    route to the destination of the latest submission. *)
Theorem route_stale_reply_wins w (r1 r2 : @route_request latlng)
    (resp1 resp2 : route) :
  routing w = [r1; r2] ->
  exists w', widget_run w [RouteReply 1 "OK" resp2; RouteReply 0 "OK" resp1] = Some w' /\
    directions w' = Some resp1 /\ routing w' = [].
Proof.
  intros Hr. simpl. unfold route_reply. rewrite Hr. simpl.
  eexists; repeat split; reflexivity.
Qed.

(** C26: the destination and the travel mode of a route request are read
    when the position arrives, not when the form is submitted: an edit
    of [#destination] between the two is the destination asked for. *)
Theorem route_destination_at_callback w (d : string) (p : latlng) (v : string) :
  geolocation_supported w = true -> checked_mode w = Some v ->
  exists w', widget_run w [Submit; EditDestination d; PositionFound p] = Some w' /\
    routing w' = (routing w ++ [mkRouteRequest p d (travel_mode_of (js_to_upper v))])%list.
Proof.
  intros Hs Hm. simpl. unfold calculateAndDisplayRoute. rewrite Hs. simpl.
  unfold position_found. simpl. rewrite Hm.
  eexists; split; reflexivity.
Qed.

(** C18: the failures of geolocation are reported by one alert each:
    without [navigator.geolocation] a submission raises
    ["Error: Browser doesn't support geolocation."] and asks for no
    position; a failed position raises ["Error: Geolocation failed."] and
    asks for no route. *)
Theorem geolocation_error_alerts w :
  (geolocation_supported w = false ->
   exists w', widget_step w Submit = Some w' /\
     alerts w' = (alerts w ++ ["Error: Browser doesn't support geolocation."])%list /\
     position_requests w' = position_requests w) /\
  (position_requests w <> 0 ->
   exists w', widget_step w PositionFailed = Some w' /\
     alerts w' = (alerts w ++ ["Error: Geolocation failed."])%list /\
     routing w' = routing w /\ directions w' = directions w).
Proof.
  split.
  - intros Hs. simpl. unfold calculateAndDisplayRoute. rewrite Hs.
    eexists; repeat split; reflexivity.
  - intros Hp. simpl. destruct (Nat.eqb_spec (position_requests w) 0); [contradiction|].
    eexists; repeat split; reflexivity.
Qed.

(** ** Completion of [initMap] *)

(** The provider's answer to one geocoding request as an event: its
    results, or a rejection. *)
Definition geocode_answer (i : nat) (a : option (list latlng)) : @widget_event latlng route :=
  match a with
  | Some rs => GeocodeResolved i rs
  | None => GeocodeRejected i
  end.

(** The trimmed texts whose answer has a first result, and those whose
    request is rejected. *)
Fixpoint found_texts (texts : list string) (answers : list (option (list latlng)))
    : list string :=
  match texts, answers with
  | t :: ts, Some (_ :: _) :: rest => js_trim t :: found_texts ts rest
  | _ :: ts, _ :: rest => found_texts ts rest
  | _, _ => []
  end.

Fixpoint rejected_texts (texts : list string) (answers : list (option (list latlng)))
    : list string :=
  match texts, answers with
  | t :: ts, None :: rest => js_trim t :: rejected_texts ts rest
  | _ :: ts, _ :: rest => rejected_texts ts rest
  | _, _ => []
  end.

Definition windows_closed w : Prop := Forall (fun m => m_window_open m = false) (markers w).

(** Answering the requests in flight one after the other, the first in
    flight each time. *)
Lemma settle_in_order w (texts : list string) (answers : list (option (list latlng)))
    (rest : list (string * option string)) :
  List.length answers = List.length texts ->
  geocoding w = (map geocode_request texts ++ rest)%list ->
  exists w', widget_run w (geocode_answer 0 <$> answers) = Some w' /\
    geocoding w' = rest /\
    m_title <$> markers w' = ((m_title <$> markers w) ++ found_texts texts answers)%list /\
    geocode_errors w' = (geocode_errors w ++ rejected_texts texts answers)%list /\
    (windows_closed w -> windows_closed w').
Proof.
  revert w answers. induction texts as [|t ts IH]; intros w [|a answers] Hl Hg;
    simpl in Hl; try discriminate.
  - exists w. simpl in *. rewrite !app_nil_r. auto.
  - assert (Hstep : exists w1, widget_step w (geocode_answer 0 a) = Some w1 /\
      geocoding w1 = (map geocode_request ts ++ rest)%list /\
      m_title <$> markers w1 = ((m_title <$> markers w) ++ found_texts [t] [a])%list /\
      geocode_errors w1 = (geocode_errors w ++ rejected_texts [t] [a])%list /\
      (windows_closed w -> windows_closed w1)).
    { destruct a as [[|p ps]|]; simpl; unfold geocode_settled; rewrite Hg;
        eexists; repeat split; cbn [markers geocode_errors];
        rewrite ?fmap_app, ?app_nil_r; try reflexivity;
        unfold windows_closed; cbn [markers]; rewrite ?Forall_app; auto. }
    destruct Hstep as (w1 & Hs & Hg1 & Ht1 & He1 & Hc1).
    destruct (IH w1 answers ltac:(lia) Hg1) as (w' & Hrun & Hg' & Ht & He & Hc).
    exists w'. simpl. rewrite Hs. split; [exact Hrun|].
    rewrite Ht, He, Ht1, He1, <- !app_assoc.
    repeat split; auto; by destruct a as [[|]|].
Qed.

(** C34: [initMap] always completes: for every answer of the provider
    to every [.locations] element (a list of results, possibly empty, or
    a rejection), settling the requests leaves none in flight; the
    markers carry, in order, the texts whose answer has a first result,
    the texts logged as failed are the rejected ones, and every info
    window starts closed. *)
Theorem initMap_settles (texts : list string) (dest : string) (mode : option string)
    (supported : bool) (answers : list (option (list latlng))) :
  List.length answers = List.length texts ->
  exists w, widget_run (initMap texts dest mode supported) (geocode_answer 0 <$> answers) = Some w /\
    geocoding w = [] /\
    m_title <$> markers w = found_texts texts answers /\
    geocode_errors w = rejected_texts texts answers /\
    windows_closed w.
Proof.
  intros Hl.
  destruct (settle_in_order (initMap texts dest mode supported) texts answers [] Hl
              (eq_sym (app_nil_r _))) as (w & Hrun & Hg & Ht & He & Hc).
  exists w. rewrite Ht, He. repeat split; try done. apply Hc. constructor.
Qed.

(** ** [initMap] in any order of the answers

    The provider answers each address with [ans address]; the order in
    which the requests settle is a schedule of positions among the
    requests still in flight. *)

Definition has_result (o : option (list latlng)) : bool :=
  match o with
  | Some (_ :: _) => true
  | _ => false
  end.

Fixpoint provider_run (ans : option string -> option (list latlng)) w (ps : list nat)
    : option (@widget latlng route) :=
  match ps with
  | [] => Some w
  | i :: rest =>
      match geocoding w !! i with
      | Some (_, addr) =>
          match widget_step w (geocode_answer i (ans addr)) with
          | Some w' => provider_run ans w' rest
          | None => None
          end
      | None => None
      end
  end.

(** A schedule settles one of the [n] requests in flight at each step
    and all of them in the end. *)
Fixpoint valid_schedule (n : nat) (ps : list nat) : bool :=
  match ps with
  | [] => Nat.eqb n 0
  | i :: rest => Nat.ltb i n && valid_schedule (pred n) rest
  end.

Section Answers.
Variable ans : option string -> option (list latlng).

(** The texts of the requests answered with a result, and rejected. *)
Fixpoint found_of (l : list (string * option string)) : list string :=
  match l with
  | [] => []
  | (raw, addr) :: r => if has_result (ans addr) then raw :: found_of r else found_of r
  end.

Fixpoint rejected_of (l : list (string * option string)) : list string :=
  match l with
  | [] => []
  | (raw, addr) :: r =>
      match ans addr with None => raw :: rejected_of r | Some _ => rejected_of r end
  end.

#[local] Instance found_of_proper : Proper ((≡ₚ) ==> (≡ₚ)) found_of.
Proof.
  induction 1 as [|[r a] l l' _ IH|[r a] [r' a'] l|l l' l'' _ IH1 _ IH2]; simpl.
  - done.
  - destruct (has_result (ans a)); by rewrite IH.
  - destruct (has_result (ans a)), (has_result (ans a')); by try constructor.
  - by rewrite IH1.
Qed.

#[local] Instance rejected_of_proper : Proper ((≡ₚ) ==> (≡ₚ)) rejected_of.
Proof.
  induction 1 as [|[r a] l l' _ IH|[r a] [r' a'] l|l l' l'' _ IH1 _ IH2]; simpl.
  - done.
  - destruct (ans a); by rewrite IH.
  - destruct (ans a), (ans a'); by try constructor.
  - by rewrite IH1.
Qed.

Lemma provider_step w (i : nat) (raw : string) (addr : option string) :
  geocoding w !! i = Some (raw, addr) ->
  exists w', widget_step w (geocode_answer i (ans addr)) = Some w' /\
    geocoding w' = delete i (geocoding w) /\
    ((m_title <$> markers w') ++ found_of (geocoding w'))%list ≡ₚ
      (m_title <$> markers w) ++ found_of (geocoding w) /\
    (geocode_errors w' ++ rejected_of (geocoding w'))%list ≡ₚ
      geocode_errors w ++ rejected_of (geocoding w).
Proof.
  intros Hi. pose proof (delete_Permutation _ _ _ Hi) as Hp.
  assert (Hf : found_of (geocoding w) ≡ₚ
                 found_of [(raw, addr)] ++ found_of (delete i (geocoding w)))
    by (rewrite Hp at 1; simpl; by destruct (has_result (ans addr))).
  assert (Hr : rejected_of (geocoding w) ≡ₚ
                 rejected_of [(raw, addr)] ++ rejected_of (delete i (geocoding w)))
    by (rewrite Hp at 1; simpl; by destruct (ans addr)).
  simpl in Hf, Hr. revert Hf Hr.
  destruct (ans addr) as [[|p ps]|] eqn:Ha; simpl; unfold geocode_settled; rewrite Hi;
    intros Hf Hr; eexists; (split; [reflexivity|]); simpl; rewrite Hf, Hr, ?fmap_app;
    repeat split; try reflexivity; simpl; rewrite <- ?app_assoc; by try solve_Permutation.
Qed.

Lemma provider_run_complete w (ps : list nat) :
  valid_schedule (List.length (geocoding w)) ps = true ->
  exists w', provider_run ans w ps = Some w' /\ geocoding w' = [] /\
    m_title <$> markers w' ≡ₚ (m_title <$> markers w) ++ found_of (geocoding w) /\
    geocode_errors w' ≡ₚ geocode_errors w ++ rejected_of (geocoding w).
Proof.
  revert w. induction ps as [|i ps IH]; intros w Hv; simpl in Hv.
  - apply Nat.eqb_eq, length_zero_iff_nil in Hv. exists w.
    rewrite Hv. simpl. rewrite !app_nil_r. auto.
  - apply andb_prop in Hv as [Hi Hv]. apply Nat.ltb_lt in Hi.
    destruct (lookup_lt_is_Some_2 _ _ Hi) as [[raw addr] Hx].
    destruct (provider_step w i raw addr Hx) as (w1 & Hs & Hg & Ht & He).
    assert (Hv1 : valid_schedule (List.length (geocoding w1)) ps = true)
      by (rewrite Hg, length_delete by eauto; rewrite <- Nat.sub_1_r in Hv; exact Hv).
    destruct (IH w1 Hv1) as (w' & Hrun & Hg' & Ht' & He').
    exists w'. simpl. rewrite Hx, Hs. repeat split; [exact Hrun | exact Hg' | |].
    + by rewrite Ht', Ht.
    + by rewrite He', He.
Qed.

(** C40: the markers do not depend on the order of the answers: for
    every schedule in which the requests of [initMap] settle, the run
    completes, and the marker titles and the logged failures are, up to
    order, the texts the provider answers with a result and the texts
    it rejects. *)
Theorem markers_any_order (texts : list string) (dest : string) (mode : option string)
    (supported : bool) (ps : list nat) :
  valid_schedule (List.length texts) ps = true ->
  exists w, provider_run ans (initMap texts dest mode supported) ps = Some w /\
    geocoding w = [] /\
    m_title <$> markers w ≡ₚ found_of (map geocode_request texts) /\
    geocode_errors w ≡ₚ rejected_of (map geocode_request texts).
Proof.
  intros Hv.
  destruct (provider_run_complete (initMap texts dest mode supported) ps
              ltac:(simpl; by rewrite length_map)) as (w & Hrun & Hg & Ht & He).
  exists w. repeat split; [exact Hrun | exact Hg | exact Ht | exact He].
Qed.

End Answers.

(** ** Termination of the geocoding phase *)

Definition is_geocode_event (e : @widget_event latlng route) : bool :=
  match e with
  | GeocodeResolved _ _ | GeocodeRejected _ => true
  | _ => false
  end.

Lemma geocoding_step w w' (e : @widget_event latlng route) :
  widget_step w e = Some w' ->
  (List.length (geocoding w') + (if is_geocode_event e then 1 else 0) =
     List.length (geocoding w))%nat.
Proof.
  assert (Hs : forall i r w1, geocode_settled w i r = Some w1 ->
            S (List.length (geocoding w1)) = List.length (geocoding w)).
  { intros i r w1. unfold geocode_settled.
    destruct (geocoding w !! i) as [[raw a]|] eqn:Hi; [|discriminate].
    intros [= <-]. pose proof (lookup_lt_Some _ _ _ Hi).
    destruct r as [[|? ?]|]; simpl; rewrite length_delete by eauto; lia. }
  destruct e; simpl; intros H.
  - apply Hs in H. lia.
  - apply Hs in H. lia.
  - injection H as <-. unfold calculateAndDisplayRoute.
    destruct (geolocation_supported w); simpl; lia.
  - destruct (Nat.eqb _ _); [discriminate|]. injection H as <-.
    unfold position_found. destruct (checked_mode w); simpl; lia.
  - destruct (Nat.eqb _ _); [discriminate|]. injection H as <-. simpl. lia.
  - unfold route_reply in H. destruct (routing w !! i); [|discriminate].
    cbv zeta in H. injection H as <-. destruct (status === "OK"); simpl; lia.
  - injection H as <-. simpl. lia.
  - injection H as <-. simpl. lia.
  - injection H as <-. simpl. lia.
  - injection H as <-. simpl. lia.
Qed.

(** C35: the geocoding phase terminates: no event but a geocoding
    answer changes the requests in flight, and each answer settles one
    of them, so along any run the answers accepted and the requests
    still in flight add up to the requests in flight at the start. *)
Theorem geocoding_settles_once w w' (es : list (@widget_event latlng route)) :
  widget_run w es = Some w' ->
  (List.length (geocoding w') + List.length (filter is_geocode_event es) =
     List.length (geocoding w))%nat.
Proof.
  revert w. induction es as [|e es IH]; intros w; simpl.
  - intros [= <-]. lia.
  - destruct (widget_step w e) as [w1|] eqn:Hs; [|discriminate]. intros Hr.
    apply IH in Hr. apply geocoding_step in Hs.
    rewrite filter_cons. destruct (is_geocode_event e); simpl in *; lia.
Qed.

End WidgetProofs.
(** ** Witnesses *)

Definition demo_widget (supported : bool) : @widget nat nat :=
  mkWidget [] [] [] 1 [mkRouteRequest 0 "Walter Library B28" (Some DRIVING);
                       mkRouteRequest 0 "Keller Hall 3-115" (Some WALKING)]
    None [] "Keller Hall 3-115" (Some "walking") supported.

Lemma markers_from_locations_witness :
  exists w : @widget nat nat,
    widget_run (initMap ["Keller Hall 3-115"; " Home "] "" None true)
      [GeocodeResolved 1 [7]; GeocodeRejected 0] = Some w /\
    ((m_title <$> markers w) ++ (fst <$> geocoding w) ++ geocode_errors w)%list
      ⊆+ js_trim <$> ["Keller Hall 3-115"; " Home "].
Proof.
  eexists. split; [reflexivity|].
  apply (markers_from_locations ["Keller Hall 3-115"; " Home "] "" None true
           [GeocodeResolved 1 [7]; GeocodeRejected 0]). reflexivity.
Defined.

Lemma sentinels_still_geocoded_witness :
  ("Home", None) ∈ geocoding (@initMap nat nat [" Home "] "" None true).
Proof.
  apply (sentinels_still_geocoded [" Home "] "" None true " Home ");
    [left | left; reflexivity].
Defined.

Lemma route_reply_spec_witness :
  exists w', route_reply (demo_widget true) 0 "ZERO_RESULTS" 5 = Some w' /\
    routing w' = delete 0 (routing (demo_widget true)) /\
    ("ZERO_RESULTS" = "OK" -> directions w' = Some 5 /\ alerts w' = alerts (demo_widget true)) /\
    ("ZERO_RESULTS" <> "OK" -> directions w' = directions (demo_widget true) /\
       alerts w' = (alerts (demo_widget true) ++
                      [("Directions request failed: " ++ "ZERO_RESULTS")%string])%list).
Proof.
  apply (route_reply_spec (demo_widget true) 0 "ZERO_RESULTS" 5
           (mkRouteRequest 0 "Walter Library B28" (Some DRIVING))). reflexivity.
Defined.

Lemma route_stale_reply_wins_witness :
  exists w', widget_run (demo_widget true) [RouteReply 1 "OK" 2; RouteReply 0 "OK" 1] = Some w' /\
    directions w' = Some 1 /\ routing w' = [].
Proof.
  apply (route_stale_reply_wins (demo_widget true)
           (mkRouteRequest 0 "Walter Library B28" (Some DRIVING))
           (mkRouteRequest 0 "Keller Hall 3-115" (Some WALKING))). reflexivity.
Defined.

Lemma route_destination_at_callback_witness :
  exists w', widget_run (demo_widget true)
      [Submit; EditDestination "Anderson Hall 350"; PositionFound 3] = Some w' /\
    routing w' = (routing (demo_widget true) ++
                  [mkRouteRequest 3 "Anderson Hall 350" (travel_mode_of (js_to_upper "walking"))])%list.
Proof.
  apply (route_destination_at_callback (demo_widget true) "Anderson Hall 350" 3 "walking");
    reflexivity.
Defined.

Lemma geolocation_error_alerts_witness :
  exists w', widget_step (demo_widget false) Submit = Some w' /\
    alerts w' = (alerts (demo_widget false) ++
                 ["Error: Browser doesn't support geolocation."])%list /\
    position_requests w' = position_requests (demo_widget false).
Proof.
  apply (proj1 (geolocation_error_alerts (demo_widget false))). reflexivity.
Defined.

Lemma initMap_settles_witness :
  exists w : @widget nat nat,
    widget_run (initMap ["Keller Hall 3-115"; " Home "; "Online"] "" None true)
      (geocode_answer 0 <$> [Some [7]; None; Some []]) = Some w /\
    geocoding w = [] /\
    m_title <$> markers w = ["Keller Hall 3-115"] /\
    geocode_errors w = ["Home"] /\
    windows_closed w.
Proof.
  exact (initMap_settles ["Keller Hall 3-115"; " Home "; "Online"] "" None true
           [Some [7]; None; Some []] eq_refl).
Defined.

Lemma geocoding_settles_once_witness :
  exists w' : @widget nat nat,
    widget_run (initMap ["Keller Hall 3-115"; "Online"] "" (Some "driving") true)
      [GeocodeResolved 1 []; Submit; GeocodeRejected 0] = Some w' /\
    (List.length (geocoding w') +
       List.length (filter (@is_geocode_event nat nat)
                      [GeocodeResolved 1 []; Submit; GeocodeRejected 0]) = 2)%nat.
Proof.
  eexists. split; [reflexivity|].
  apply (geocoding_settles_once
           (initMap ["Keller Hall 3-115"; "Online"] "" (Some "driving") true) _
           [GeocodeResolved 1 []; Submit; GeocodeRejected 0]).
  reflexivity.
Defined.

(** A provider that finds every address and rejects the request with no
    address. *)
Definition demo_ans (a : option string) : option (list nat) :=
  match a with
  | Some _ => Some [4]
  | None => None
  end.

Lemma markers_any_order_witness :
  valid_schedule 2 [1; 0] = true /\
  exists w : @widget nat nat,
    provider_run demo_ans (initMap ["Keller Hall 3-115"; " Home "] "" None true) [1; 0] = Some w /\
    geocoding w = [] /\
    m_title <$> markers w ≡ₚ found_of demo_ans (map geocode_request ["Keller Hall 3-115"; " Home "]) /\
    geocode_errors w ≡ₚ rejected_of demo_ans (map geocode_request ["Keller Hall 3-115"; " Home "]).
Proof.
  split; [reflexivity|].
  apply (markers_any_order demo_ans ["Keller Hall 3-115"; " Home "] "" None true [1; 0]).
  reflexivity.
Defined.

End WidgetProofs.
