(* ===== verification/Stocks.v ===== *)
(** * The stock lookup form (src/static/js/stocks.js)

    On submission (lines 16-34) the handler normalises the text of
    [#stock] ([trim] then [toUpperCase]) and, when it is not empty, calls
    [getData] (lines 3-12), which fetches the quote URL and parses the
    body as JSON; a rejected fetch or an unparsable body is caught inside
    [getData] and answered as the object [{error: message}].  The
    callback given to [then] classifies the parsed value by the
    truthiness of its fields ['Error Message'], ['Note'] and
    ['Meta Data'], in that order, and writes a string into
    [#stock_result]; the [catch] callback writes
    ["Failed to fetch data: " + error].

    - [fetch_outcome] is what the network and the body parser give back;
    - [getData], [on_data], [on_response] and [submit_symbol] are the
      functions of the script;
    - the module [Page] models the form as a state with the requests in
      flight and an event relation in which responses come back in any
      order.

    The pretty-printed payload is read back by the [JSON.parse] of
    [Json], so the text written is shown to be the payload itself. *)

From stdpp Require Import base list strings.
From Stdlib Require Import String Ascii ZArith Lia.
From S2P Require Import Prelude JsString JsValue Json.
Open Scope js_scope.
Open Scope string_scope.

Module Quote.

(** Line 1. *)
Definition API_KEY : string := "X9T8SI5I4AJB2X87".

(** Line 4: the URL built from the symbol, with no encoding. *)
Definition quote_url (ticker_symbol : string) : string :=
  "https://www.alphavantage.co/query?function=TIME_SERIES_INTRADAY&symbol="
    ++ ticker_symbol ++ "&interval=5min&apikey=" ++ API_KEY.

(** What [await fetch(url)] and [await response.json()] give: a
    rejection of [fetch] with the message of its error, a body that does
    not parse (the [SyntaxError] message), or the parsed value. *)
Inductive fetch_outcome : Type :=
| FetchRejected (message : string)
| BodyInvalid (message : string)
| BodyParsed (data : jsval).

(** Lines 3-12: both failures are caught and answered as an object with
    a single field [error]. *)
Definition getData (o : fetch_outcome) : jsval :=
  match o with
  | FetchRejected m | BodyInvalid m => JObj [("error", JStr m)]
  | BodyParsed data => data
  end.

(** Lines 20-29, the callback given to [then]: [inr (Some s)] writes
    [s] into [#stock_result]; [inr None] is [.val(undefined)], which
    writes nothing; [inl e] is an exception, which rejects the promise
    that [catch] observes. *)
Definition on_data (data : jsval) : js_error + option string :=
  let! em := js_get_or_throw data "Error Message" in
  if js_truthy em then inr (Some ("Error: " ++ js_to_string em)) else
  let! note := js_get_or_throw data "Note" in
  if js_truthy note then inr (Some ("API Limit Reached: " ++ js_to_string note)) else
  let! meta := js_get_or_throw data "Meta Data" in
  if js_truthy meta then inr (json_stringify data)
  else inr (Some "Unexpected response format.").

(** Lines 30-32, the [catch] callback. *)
Definition on_error (e : js_error) : option string :=
  Some ("Failed to fetch data: " ++ js_error_to_string e).

(** Lines 20-32: the value written into [#stock_result] when the
    request of a submission settles. *)
Definition on_response (o : fetch_outcome) : option string :=
  match on_data (getData o) with
  | inr r => r
  | inl e => on_error e
  end.

(** Lines 18-19: the symbol sent, when the test [if (symbol)] passes. *)
Definition submit_symbol (input : string) : option string :=
  let symbol := js_to_upper (js_trim input) in
  if js_truthy (JStr symbol) then Some symbol else None.

End Quote.

Module QuoteProofs.
Import Quote.

(** ** Lemmas *)

Lemma plain_error_message : plain_key "Error Message".
Proof. repeat split; try discriminate; reflexivity. Qed.
Lemma plain_note : plain_key "Note".
Proof. repeat split; try discriminate; reflexivity. Qed.
Lemma plain_meta_data : plain_key "Meta Data".
Proof. repeat split; try discriminate; reflexivity. Qed.

#[local] Hint Resolve plain_error_message plain_note plain_meta_data : js.

(** On a value that is neither [null] nor [undefined], the [then]
    callback does not throw and follows the decision table of lines
    21-29 on the three fields. *)
Lemma on_data_table (v : jsval) :
  v <> JNull -> v <> JUndefined ->
  on_data v =
    inr (if js_truthy (payload_field v "Error Message")
         then Some ("Error: " ++ js_to_string (payload_field v "Error Message"))
         else if js_truthy (payload_field v "Note")
         then Some ("API Limit Reached: " ++ js_to_string (payload_field v "Note"))
         else if js_truthy (payload_field v "Meta Data")
         then json_stringify v
         else Some "Unexpected response format.").
Proof.
  intros Hn Hu. unfold on_data.
  rewrite !js_get_or_throw_plain by auto with js. simpl.
  destruct (js_truthy (payload_field v "Error Message")),
    (js_truthy (payload_field v "Note")),
    (js_truthy (payload_field v "Meta Data")); reflexivity.
Qed.


(** Only an object has a truthy ['Meta Data']. *)
Lemma meta_truthy_object (v : jsval) :
  js_truthy (payload_field v "Meta Data") = true ->
  exists props, v = JObj props.
Proof. destruct v; try discriminate. eauto. Qed.


(** ** Properties *)





(** C3: when neither ['Error Message'] nor ['Note'] is truthy and
    ['Meta Data'] is, the whole payload is written pretty-printed by
    [JSON.stringify(data, null, 2)], a text that opens with ["{"]. *)
Theorem quote_meta_data_third (props : list (string * jsval)) :
  js_truthy (payload_field (JObj props) "Error Message") = false ->
  js_truthy (payload_field (JObj props) "Note") = false ->
  js_truthy (payload_field (JObj props) "Meta Data") = true ->
  on_response (BodyParsed (JObj props)) = json_stringify (JObj props) /\
  exists r, on_response (BodyParsed (JObj props)) = Some (String "{"%char r).
Proof.
  intros He Hn Hm. unfold on_response, getData.
  rewrite on_data_table by discriminate. rewrite He, Hn, Hm.
  split; [reflexivity | apply json_stringify_obj].
Qed.

Lemma quote_meta_data_third_witness :
  on_response (BodyParsed (JObj [("Meta Data", JObj [("2. Symbol", JStr "IBM")])]))
    = json_stringify (JObj [("Meta Data", JObj [("2. Symbol", JStr "IBM")])]) /\
  exists r, on_response (BodyParsed (JObj [("Meta Data", JObj [("2. Symbol", JStr "IBM")])]))
    = Some (String "{"%char r).
Proof. apply quote_meta_data_third; reflexivity. Defined.

(** C4: a payload with none of the three fields truthy is reported as
    ["Unexpected response format."]. *)
Theorem quote_unexpected_last (v : jsval) :
  v <> JNull -> v <> JUndefined ->
  js_truthy (payload_field v "Error Message") = false ->
  js_truthy (payload_field v "Note") = false ->
  js_truthy (payload_field v "Meta Data") = false ->
  on_response (BodyParsed v) = Some "Unexpected response format.".
Proof.
  intros Hn Hu He Hno Hm. unfold on_response, getData.
  by rewrite on_data_table, He, Hno, Hm.
Qed.

Lemma quote_unexpected_last_witness :
  on_response (BodyParsed (JObj [("Error Message", JStr "")]))
    = Some "Unexpected response format.".
Proof. apply quote_unexpected_last; first [discriminate | reflexivity]. Defined.

(** C6: a failed [fetch] and a body that is not JSON are both caught
    inside [getData] and reported as ["Unexpected response format."],
    not by the [catch] callback. *)
Theorem quote_fetch_failure_unexpected (m : string) :
  on_response (FetchRejected m) = Some "Unexpected response format." /\
  on_response (BodyInvalid m) = Some "Unexpected response format.".
Proof. split; reflexivity. Qed.




(** C36: whatever the network and the server do, the settlement of a
    request writes a string into [#stock_result]: the [then] callback
    never passes [undefined] to [.val], since the payload it
    pretty-prints is an object, and every exception reaches the [catch]
    callback, which writes a string too. *)
Theorem quote_always_writes_string (o : fetch_outcome) :
  exists s, on_response o = Some s.
Proof.
  unfold on_response.
  destruct (decide (getData o = JNull)) as [Hn|Hn];
    [rewrite Hn; eexists; reflexivity|].
  destruct (decide (getData o = JUndefined)) as [Hu|Hu];
    [rewrite Hu; eexists; reflexivity|].
  rewrite (on_data_table _ Hn Hu).
  destruct (js_truthy (payload_field _ "Error Message")); [eauto|].
  destruct (js_truthy (payload_field _ "Note")); [eauto|].
  destruct (js_truthy (payload_field _ "Meta Data")) eqn:Hm; [|eauto].
  destruct (meta_truthy_object _ Hm) as [props ->].
  destruct (json_stringify_obj props) as [r ->]. eauto.
Qed.

End QuoteProofs.

Module QuoteSubmit.
Import Quote.

(** C22: a submission sends a request exactly when the text of [#stock]
    has a character that is not white space, and the symbol sent is
    that text trimmed and upper-cased. *)
Theorem submit_symbol_spec (input : string) :
  submit_symbol input =
    if all_ws input then None else Some (js_to_upper (js_trim input)).
Proof.
  unfold submit_symbol, js_truthy.
  destruct (all_ws input) eqn:Hw.
  - apply js_trim_empty in Hw. by rewrite Hw.
  - destruct (String.eqb_spec (js_to_upper (js_trim input)) "") as [He|He];
      [|reflexivity].
    apply js_to_upper_empty, js_trim_empty in He. congruence.
Qed.

End QuoteSubmit.

(** ** The form as a page with requests in flight

    Each submission that passes the test of line 19 starts a request;
    the requests settle in any order, and each settlement runs the
    callbacks of lines 20-32, which overwrite [#stock_result].  Nothing
    cancels or orders the requests (lines 16-34). *)

Module Page.
Import Quote.

Record page : Type := mkPage {
  stock_input : string;        (** the text of [#stock] *)
  stock_result : string;       (** the value of [#stock_result] *)
  in_flight : list string      (** the symbols of the pending requests *)
}.

Inductive page_event : Type :=
| PType (s : string)                       (** the user edits [#stock] *)
| PSubmit                                  (** the form is submitted *)
| PSettle (i : nat) (o : fetch_outcome).   (** request [i] settles *)

(** One event; [None] when the event cannot happen (no request [i]). *)
Definition page_step (p : page) (e : page_event) : option page :=
  match e with
  | PType s => Some (mkPage s (stock_result p) (in_flight p))
  | PSubmit =>
      match submit_symbol (stock_input p) with
      | Some sym => Some (mkPage (stock_input p) (stock_result p) (in_flight p ++ [sym]))
      | None => Some p
      end
  | PSettle i o =>
      match in_flight p !! i with
      | Some _ =>
          Some (mkPage (stock_input p)
                  (default (stock_result p) (on_response o))
                  (delete i (in_flight p)))
      | None => None
      end
  end.

Fixpoint page_run (p : page) (es : list page_event) : option page :=
  match es with
  | [] => Some p
  | e :: rest => match page_step p e with
                 | Some p' => page_run p' rest
                 | None => None
                 end
  end.

Lemma page_step_in_flight (p p' : page) (e : page_event) :
  Forall (fun s => s <> "") (in_flight p) -> page_step p e = Some p' ->
  Forall (fun s => s <> "") (in_flight p').
Proof.
  intros Hf. destruct e as [s| |i o]; simpl.
  - by intros [= <-].
  - unfold submit_symbol, js_truthy.
    destruct (String.eqb_spec (js_to_upper (js_trim (stock_input p))) "") as [He|He];
      simpl; intros [= <-]; [exact Hf|].
    simpl. apply Forall_app; split; [exact Hf|]. by constructor.
  - destruct (in_flight p !! i); [intros [= <-] | discriminate].
    simpl. by apply Forall_delete.
Qed.

(** C23: every request in flight carries a non-empty symbol, after any
    sequence of edits, submissions and settlements from a page with no
    request in flight. *)
Theorem page_in_flight_nonempty (p0 p : page) (es : list page_event) :
  in_flight p0 = [] -> page_run p0 es = Some p ->
  Forall (fun s => s <> "") (in_flight p).
Proof.
  intros H0.
  assert (Hf : Forall (fun s : string => s <> "") (in_flight p0))
    by (rewrite H0; constructor).
  clear H0. revert p0 Hf. induction es as [|e es IH]; simpl; intros p0 Hf.
  - by intros [= <-].
  - destruct (page_step p0 e) as [p1|] eqn:Hs; [|discriminate].
    apply IH. exact (page_step_in_flight _ _ _ Hf Hs).
Qed.

Lemma page_in_flight_nonempty_witness :
  in_flight (mkPage "" "" []) = [] /\
  page_run (mkPage "" "" []) [PType " ibm "; PSubmit] = Some (mkPage " ibm " "" ["IBM"]) /\
  Forall (fun s => s <> "") (in_flight (mkPage " ibm " "" ["IBM"])).
Proof.
  split; [reflexivity|]. split; [reflexivity|].
  apply (page_in_flight_nonempty (mkPage "" "" []) _ [PType " ibm "; PSubmit]);
    reflexivity.
Defined.

(** C24: with two requests in flight, the older one may settle last, and
    then its response, not the one of the latest submission, is what
    [#stock_result] shows. *)
Theorem page_stale_response_wins (p : page) (s1 s2 : string)
    (o1 o2 : fetch_outcome) (r1 : string) :
  in_flight p = [s1; s2] -> on_response o1 = Some r1 ->
  page_run p [PSettle 1 o2; PSettle 0 o1] =
    Some (mkPage (stock_input p) r1 []).
Proof.
  intros Hf Ho. destruct p as [inp res fl]. simpl in Hf. subst fl.
  simpl. by rewrite Ho.
Qed.

Lemma page_stale_response_wins_witness :
  page_run (mkPage "aapl" "" ["IBM"; "AAPL"])
    [PSettle 1 (BodyParsed (JObj [("Meta Data", JStr "AAPL")]));
     PSettle 0 (BodyParsed (JObj [("Error Message", JStr "IBM")]))] =
    Some (mkPage "aapl" "Error: IBM" []).
Proof.
  exact (page_stale_response_wins (mkPage "aapl" "" ["IBM"; "AAPL"]) "IBM" "AAPL"
           (BodyParsed (JObj [("Error Message", JStr "IBM")]))
           (BodyParsed (JObj [("Meta Data", JStr "AAPL")])) "Error: IBM"
           eq_refl eq_refl).
Defined.

End Page.
