(* ===== verification/Schedule.v ===== *)
(** * The schedule carousel (src/static/js/script_myschedule.js)

    At load (lines 1-36) the script reads the trimmed text of every
    [.locations] element, maps each through the object [loc_dict] to an
    image file and looks up, among the [img] elements under
    [.image-preview], the first whose [src] is ["/img/" + file].  It keeps
    one index, [currentImageIndex]; [showImage] hides every direct [img]
    child of [.image-preview] and shows the image of the index.  [.next]
    and [.previous] move the index cyclically (lines 39-48); hovering a
    location whose name has a truthy [loc_dict] entry moves that
    location's thumbnail into it, shows it and jumps to its index, and
    leaving detaches the thumbnail (lines 51-76).

    The page is the context of the Section [Carousel]: the location texts
    and the images.  The state is [carousel]: the index (a JavaScript
    number, so possibly [NaN]), the set of visible images, the children of
    every location element and the set of visible thumbnails.

    Section [CarouselRefinement] relates the page to the abstract cursor
    of the typeclass [CyclicCursor]: the abstraction [carousel_abs] keeps
    the index and the thumbnails attached to the document, and every
    event sequence from load is simulated step by step. *)

From stdpp Require Import base list strings gmap.
From Stdlib Require Import String Ascii ZArith Lia.
From S2P Require Import Prelude JsString JsValue.
Open Scope js_scope.
Open Scope string_scope.

(** Lines 4-12. *)
Definition loc_dict : jsval :=
  JObj [("Walter Library B28", JStr "walter.jpg");
        ("Anderson Hall 350", JStr "anderson.jpg");
        ("Minneapolis RecWell", JStr "recwell.jpg");
        ("Home", JStr "home.jpg");
        ("Keller Hall 3-115", JStr "keller.jpg");
        ("164 E Broadway - Mall of America, Bloomington, MN 55425", JStr "moa.jpg");
        ("Online", JStr "online.jpeg")].

(** [loc_dict[address]]: an own entry, or a member of
    [Object.prototype]. *)
Definition loc_lookup (address : string) : jsval :=
  match js_get loc_dict address with
  | GetValue v => v
  | GetThrows _ => JUndefined
  end.

(** An [img] element under [.image-preview]: its identity, its [src]
    attribute and whether it is a direct child ([.image-preview > img],
    line 3) or a deeper descendant (only [.image-preview img], line 23). *)
Record img : Type := mkImg { img_id : nat; img_src : string; img_direct : bool }.

(** A child node of a location element: its own content, or the
    thumbnail created for location [owner] (lines 59-63). *)
Inductive node : Type :=
| NText
| NThumb (owner : nat).

#[export] Instance node_eq_dec : EqDecision node.
Proof. solve_decision. Defined.

Fixpoint first_with_src (src : string) (imgs : list img) : option nat :=
  match imgs with
  | [] => None
  | i :: rest => if img_src i === src then Some (img_id i) else first_with_src src rest
  end.

Record carousel : Type := mkCarousel {
  currentImageIndex : jsnum;
  visible : gset nat;                 (** the images shown *)
  children : gmap nat (list node);    (** the children of location [k] *)
  thumb_visible : gset nat            (** the thumbnails shown *)
}.

Inductive carousel_event : Type :=
| ENext                 (** a click on [.next] *)
| EPrevious             (** a click on [.previous] *)
| EEnter (index : nat)  (** the pointer enters location [index] *)
| ELeave (index : nat). (** the pointer leaves location [index] *)

Section Carousel.

(** The trimmed texts of the [.locations] elements, in document order
    (lines 15-18), and the [img] elements under [.image-preview]. *)
Context (scheduleLocations : list string) (images : list img).

(** Lines 21-24: the selector of line 23 interpolates [imgPath], which is
    [undefined] for a name with no entry. *)
Definition scheduleImages : list (option nat) :=
  map (fun address =>
         first_with_src ("/img/" ++ js_to_string (loc_lookup address)) images)
      scheduleLocations.

(** Line 3. *)
Definition pictures : list nat := map img_id (filter img_direct images).

Definition images_length : jsnum := JsInt (Z.of_nat (List.length scheduleImages)).

(** Lines 29-33. *)
Definition showImage (index : jsnum) (s : carousel) : carousel :=
  let hidden := visible s ∖ list_to_set pictures in
  mkCarousel index
    (match js_index scheduleImages index with
     | Some i => {[i]} ∪ hidden
     | None => hidden
     end)
    (children s) (thumb_visible s).

(** Lines 39-42. *)
Definition next (s : carousel) : carousel :=
  showImage (js_rem (js_add (currentImageIndex s) (JsInt 1)) images_length) s.

(** Lines 45-48. *)
Definition previous (s : carousel) : carousel :=
  showImage
    (js_rem (js_add (js_sub (currentImageIndex s) (JsInt 1)) images_length)
            images_length) s.

(** Lines 53-56: the hover handlers are bound only to a location whose
    [loc_dict] entry is truthy. *)
Definition wired (index : nat) : bool :=
  match scheduleLocations !! index with
  | Some address => js_truthy (loc_lookup address)
  | None => false
  end.


(** [$thumbnail.detach()]: the node leaves whichever parent holds it. *)
Definition detach_thumb (index : nat) (ch : gmap nat (list node)) :
    gmap nat (list node) :=
  filter (fun n => n <> NThumb index) <$> ch.

(** [$thumbnail.appendTo($location)]: a node already in the document
    is moved, not copied. *)
Definition append_thumb (index : nat) (ch : gmap nat (list node)) :
    gmap nat (list node) :=
  alter (fun l => (l ++ [NThumb index])%list) index (detach_thumb index ch).

(** Lines 67-70, the mouseenter handler. *)
Definition enter (index : nat) (s : carousel) : carousel :=
  showImage (JsInt (Z.of_nat index))
    (mkCarousel (currentImageIndex s) (visible s)
       (append_thumb index (children s)) ({[index]} ∪ thumb_visible s)).

(** Lines 72-74, the mouseleave handler. *)
Definition leave (index : nat) (s : carousel) : carousel :=
  mkCarousel (currentImageIndex s) (visible s)
    (detach_thumb index (children s)) (thumb_visible s ∖ {[index]}).

Definition carousel_step (s : carousel) (e : carousel_event) : carousel :=
  match e with
  | ENext => next s
  | EPrevious => previous s
  | EEnter i => if wired i then enter i s else s
  | ELeave i => if wired i then leave i s else s
  end.

Definition carousel_run (s : carousel) (es : list carousel_event) : carousel :=
  fold_left carousel_step es s.

(** Lines 26 and 36: the state after load, from the visibility [vis0]
    the page's style gives the images; every location element holds its
    text only. *)
Definition initial_children : gmap nat (list node) :=
  list_to_map (imap (fun k _ => (k, [NText])) scheduleLocations).

Definition load (vis0 : gset nat) : carousel :=
  showImage (JsInt 0) (mkCarousel (JsInt 0) vis0 initial_children ∅).

(** The states the page reaches from load. *)
Inductive reachable (vis0 : gset nat) : carousel -> Prop :=
| reach_load : reachable vis0 (load vis0)
| reach_step s e : reachable vis0 s -> reachable vis0 (carousel_step s e).

End Carousel.

(** ** The contract of the index: a cyclic cursor

    What the buttons and the hover promise of the index, stated apart
    from the page: a position in [0, size), moved by one forwards or
    backwards modulo [size], or set to a position. *)

Local Open Scope Z_scope.

Class CyclicCursor (S : Type) := {
  cc_size : Z;
  cc_pos : S -> option Z;
  cc_next : S -> S;
  cc_prev : S -> S;
  cc_jump : nat -> S -> S
}.

Class CyclicCursorLaws (S : Type) `{CyclicCursor S} := {
  cc_size_pos : 0 < cc_size;
  cc_next_spec s i : cc_pos s = Some i -> 0 <= i < cc_size ->
    cc_pos (cc_next s) = Some ((i + 1) mod cc_size);
  cc_prev_spec s i : cc_pos s = Some i -> 0 <= i < cc_size ->
    cc_pos (cc_prev s) = Some ((i - 1) mod cc_size);
  cc_jump_spec s j : (Z.of_nat j < cc_size)%Z -> cc_pos (cc_jump j s) = Some (Z.of_nat j)
}.

Section CursorClient.
Context {S : Type} `{CyclicCursorLaws S}.

Lemma cc_mod_range (z : Z) : 0 <= z mod cc_size < cc_size.
Proof. apply Z.mod_pos_bound, cc_size_pos. Qed.

(** [N] steps forward from position [i] reach [(i + N) mod size]. *)
Lemma cc_next_iter (N : nat) (s : S) (i : Z) :
  cc_pos s = Some i -> 0 <= i < cc_size ->
  cc_pos (Nat.iter N cc_next s) = Some ((i + Z.of_nat N) mod cc_size).
Proof.
  intros Hs Hi. pose proof cc_size_pos as Hn. induction N as [|N IH]; simpl.
  - rewrite Z.add_0_r, Z.mod_small by lia. exact Hs.
  - rewrite (cc_next_spec _ _ IH (cc_mod_range _)).
    rewrite Z.add_mod_idemp_l by lia. f_equal. f_equal. lia.
Qed.

(** [N] steps backward from position [i] reach [(i - N) mod size]. *)
Lemma cc_prev_iter (N : nat) (s : S) (i : Z) :
  cc_pos s = Some i -> 0 <= i < cc_size ->
  cc_pos (Nat.iter N cc_prev s) = Some ((i - Z.of_nat N) mod cc_size).
Proof.
  intros Hs Hi. pose proof cc_size_pos as Hn. induction N as [|N IH]; simpl.
  - rewrite Z.sub_0_r, Z.mod_small by lia. exact Hs.
  - rewrite (cc_prev_spec _ _ IH (cc_mod_range _)).
    rewrite Zminus_mod, Z.mod_mod by lia. rewrite <- Zminus_mod.
    f_equal. f_equal. lia.
Qed.

End CursorClient.

(** ** The abstract carousel

    What the page promises over whole sequences of events, with the DOM
    left out: a position modulo [size] and the set of locations whose
    thumbnail is shown.  The buttons move the position by one; hovering
    a location that [hoverable] admits jumps to it and adds its
    thumbnail; leaving it removes the thumbnail. *)

Record cursor : Type := mkCursor { cur_pos : Z; cur_thumbs : gset nat }.

Definition cursor_step (size : Z) (hoverable : nat -> bool) (c : cursor)
    (e : carousel_event) : cursor :=
  match e with
  | ENext => mkCursor ((cur_pos c + 1) mod size) (cur_thumbs c)
  | EPrevious => mkCursor ((cur_pos c - 1) mod size) (cur_thumbs c)
  | EEnter k =>
      if hoverable k then mkCursor (Z.of_nat k) ({[k]} ∪ cur_thumbs c) else c
  | ELeave k =>
      if hoverable k then mkCursor (cur_pos c) (cur_thumbs c ∖ {[k]}) else c
  end.

Definition cursor_run (size : Z) (hoverable : nat -> bool) (c : cursor)
    (es : list carousel_event) : cursor :=
  fold_left (cursor_step size hoverable) es c.

(** ** JavaScript's [%] on the index *)

Lemma js_next_index (n i : Z) :
  0 < n -> 0 <= i < n ->
  js_rem (js_add (JsInt i) (JsInt 1)) (JsInt n) = JsInt ((i + 1) mod n).
Proof.
  intros Hn Hi. simpl. destruct (Z.eqb_spec n 0); [lia|].
  by rewrite Z.rem_mod_nonneg by lia.
Qed.

Lemma js_prev_index (n i : Z) :
  0 < n -> 0 <= i < n ->
  js_rem (js_add (js_sub (JsInt i) (JsInt 1)) (JsInt n)) (JsInt n) =
    JsInt ((i - 1) mod n).
Proof.
  intros Hn Hi. simpl. destruct (Z.eqb_spec n 0); [lia|].
  rewrite Z.rem_mod_nonneg by lia. f_equal.
  rewrite <- (Z_mod_plus_full (i - 1) 1 n). f_equal. lia.
Qed.

Section CarouselProofs.
Context (scheduleLocations : list string) (images : list img).

Abbreviation L := scheduleLocations.
Abbreviation I := images.
Abbreviation n := (Z.of_nat (List.length L)).

Lemma images_length_eq : images_length L I = JsInt n.
Proof. unfold images_length, scheduleImages. by rewrite length_map. Qed.

Lemma showImage_index (idx : jsnum) (s : carousel) :
  currentImageIndex (showImage L I idx s) = idx.
Proof. reflexivity. Qed.

Lemma wired_lt (i : nat) : wired L i = true -> (i < List.length L)%nat.
Proof.
  unfold wired. destruct (L !! i) eqn:E; [|discriminate].
  intros _. by apply lookup_lt_Some in E.
Qed.

(** The carousel implements the cursor while there is at least one
    location: the position is the index when it is an integer. *)
Definition carousel_pos (s : carousel) : option Z :=
  match currentImageIndex s with
  | JsInt z => Some z
  | JsNaN => None
  end.

#[local] Instance carousel_cursor : CyclicCursor carousel := {
  cc_size := n;
  cc_pos := carousel_pos;
  cc_next := next L I;
  cc_prev := previous L I;
  cc_jump := enter L I
}.

Lemma carousel_cursor_laws : 0 < n -> CyclicCursorLaws carousel.
Proof.
  intros Hn. split; simpl.
  - exact Hn.
  - intros s i Hs Hi. unfold carousel_pos, next in *.
    destruct (currentImageIndex s); [|discriminate]. injection Hs as ->.
    rewrite images_length_eq, js_next_index by lia. reflexivity.
  - intros s i Hs Hi. unfold carousel_pos, previous in *.
    destruct (currentImageIndex s); [|discriminate]. injection Hs as ->.
    rewrite images_length_eq, js_prev_index by lia. reflexivity.
  - intros s j _. reflexivity.
Qed.

Lemma carousel_run_repeat (e : carousel_event) (N : nat) (s : carousel) :
  carousel_run L I s (repeat e N) = Nat.iter N (fun x => carousel_step L I x e) s.
Proof.
  unfold carousel_run. revert s. induction N as [|N IH]; intros s; [reflexivity|].
  simpl. rewrite IH. clear IH. induction N as [|N IH]; [reflexivity|].
  simpl. by rewrite IH.
Qed.

Lemma pos_index (s : carousel) (z : Z) :
  carousel_pos s = Some z -> currentImageIndex s = JsInt z.
Proof. unfold carousel_pos. destruct (currentImageIndex s); congruence. Qed.

(** ** Properties of the index *)

(** C7: after [N] clicks on [.next] from the page as loaded, the index
    is [N mod imageCount]. *)
Theorem carousel_next_clicks (vis0 : gset nat) (N : nat) :
  (0 < List.length L)%nat ->
  currentImageIndex (carousel_run L I (load L I vis0) (repeat ENext N)) =
    JsInt (Z.of_nat N mod n).
Proof.
  intros Hl. pose proof (carousel_cursor_laws ltac:(lia)) as Hlaws.
  rewrite carousel_run_repeat.
  change (fun x => carousel_step L I x ENext) with (next L I).
  apply pos_index.
  exact (@cc_next_iter carousel _ Hlaws N (load L I vis0) 0 eq_refl ltac:(simpl; lia)).
Qed.

(** C8: after [N] clicks on [.previous] from the page as loaded, the
    index is [(imageCount - N mod imageCount) mod imageCount]. *)
Theorem carousel_previous_clicks (vis0 : gset nat) (N : nat) :
  (0 < List.length L)%nat ->
  currentImageIndex (carousel_run L I (load L I vis0) (repeat EPrevious N)) =
    JsInt ((n - Z.of_nat N mod n) mod n).
Proof.
  intros Hl. pose proof (carousel_cursor_laws ltac:(lia)) as Hlaws.
  rewrite carousel_run_repeat.
  change (fun x => carousel_step L I x EPrevious) with (previous L I).
  apply pos_index.
  refine (eq_trans
    (@cc_prev_iter carousel _ Hlaws N (load L I vis0) 0 eq_refl ltac:(simpl; lia)) _).
  simpl. f_equal.
  rewrite (Zminus_mod n), Z_mod_same_full, (Zminus_mod 0), Zmod_0_l, Z.mod_mod by lia.
  reflexivity.
Qed.

(** The index is an integer in [0, imageCount). *)
Definition index_in_range (s : carousel) : Prop :=
  exists z, currentImageIndex s = JsInt z /\ 0 <= z < n.

Lemma index_in_range_load (vis0 : gset nat) :
  (0 < List.length L)%nat -> index_in_range (load L I vis0).
Proof. intros Hl. exists 0. split; [reflexivity | lia]. Qed.

Lemma step_index_in_range (s : carousel) (e : carousel_event) :
  (0 < List.length L)%nat -> index_in_range s ->
  index_in_range (carousel_step L I s e).
Proof.
  intros Hl [z [Hz Hzr]].
  destruct e as [| |i|i]; simpl.
  - unfold next. rewrite Hz, images_length_eq, js_next_index by lia.
    eexists; split; [reflexivity | apply Z.mod_pos_bound; lia].
  - unfold previous. rewrite Hz, images_length_eq, js_prev_index by lia.
    eexists; split; [reflexivity | apply Z.mod_pos_bound; lia].
  - destruct (wired L i) eqn:Hw; [|by exists z].
    apply wired_lt in Hw. eexists; split; [reflexivity | lia].
  - destruct (wired L i); by exists z.
Qed.

(** C9: while there is at least one location, the index of every
    reachable state is an integer in [0, imageCount). *)
Theorem carousel_index_in_range (vis0 : gset nat) (s : carousel) :
  (0 < List.length L)%nat -> reachable L I vis0 s ->
  exists z, currentImageIndex s = JsInt z /\ 0 <= z < n.
Proof.
  intros Hl Hr. induction Hr as [|s e Hr IH];
    [by apply index_in_range_load | by apply step_index_in_range].
Qed.

(** C28: with no location at all, a click on [.next] or [.previous]
    makes the index [NaN] ([x % 0]). *)
Theorem carousel_empty_nan (s : carousel) :
  L = [] ->
  currentImageIndex (next L I s) = JsNaN /\
  currentImageIndex (previous L I s) = JsNaN.
Proof.
  intros ->. unfold next, previous, images_length. simpl.
  destruct (currentImageIndex s); split; reflexivity.
Qed.

End CarouselProofs.

(** ** Visibility of the images and the thumbnails *)

Section CarouselDom.
Context (scheduleLocations : list string) (images : list img).
Abbreviation L := scheduleLocations.
Abbreviation I := images.
Local Open Scope nat_scope.

(** The images of [.image-preview > img] that are visible are the image
    of the index, and the image of the index is visible. *)
Definition shows_current (s : carousel) : Prop :=
  (forall p, p ∈ pictures I -> p ∈ visible s ->
     js_index (scheduleImages L I) (currentImageIndex s) = Some p) /\
  (forall i, js_index (scheduleImages L I) (currentImageIndex s) = Some i ->
     i ∈ visible s).

Lemma showImage_shows (idx : jsnum) (s : carousel) :
  shows_current (showImage L I idx s).
Proof.
  unfold shows_current, showImage; simpl. split.
  - intros p Hp Hv.
    destruct (js_index (scheduleImages L I) idx) as [i|]; [|set_solver].
    apply elem_of_union in Hv as [Hv|Hv]; [by apply elem_of_singleton in Hv as ->|].
    exfalso. apply elem_of_difference in Hv as [_ Hv].
    apply Hv, elem_of_list_to_set, Hp.
  - intros i ->. set_solver.
Qed.

Lemma step_shows (s : carousel) (e : carousel_event) :
  shows_current s -> shows_current (carousel_step L I s e).
Proof.
  intros H. destruct e as [| |i|i]; simpl;
    try apply showImage_shows; destruct (wired L i); try exact H.
  apply showImage_shows.
Qed.

(** The children of the location elements after load: a text node each. *)
Lemma initial_children_lookup_gen (m j : nat) :
  (list_to_map (imap (fun k _ => (k + m, [NText])) L) : gmap nat (list node)) !! j =
    (if decide (m <= j < m + List.length L)%nat then Some [NText] else None
     : option (list node)).
Proof.
  revert m. induction L as [|x l IH]; intros m; simpl.
  - rewrite lookup_empty. case_decide; [lia | reflexivity].
  - rewrite (imap_ext _ (fun k _ => (k + S m, [NText]))).
    2: { intros i y _. simpl. f_equal. lia. }
    rewrite lookup_insert, IH.
    repeat case_decide; subst; try reflexivity; lia.
Qed.

Lemma initial_children_lookup (j : nat) :
  initial_children L !! j =
    (if decide (j < List.length L)%nat then Some [NText] else None).
Proof.
  unfold initial_children.
  rewrite (imap_ext _ (fun k _ => (k + 0, [NText]))) by (intros; simpl; f_equal; lia).
  rewrite initial_children_lookup_gen. repeat case_decide; try reflexivity; lia.
Qed.

(** Every location element holds at most one copy of each node, and no
    thumbnail of another location. *)
Definition thumbs_ok (ch : gmap nat (list node)) : Prop :=
  forall k l, ch !! k = Some l -> NoDup l /\ forall i, NThumb i ∈ l -> i = k.

Lemma thumbs_ok_initial : thumbs_ok (initial_children L).
Proof.
  intros k l. rewrite initial_children_lookup. case_decide; [|discriminate].
  intros [= <-]. split; [apply NoDup_singleton | set_solver].
Qed.

Lemma detach_thumb_lookup (i k : nat) (ch : gmap nat (list node)) :
  detach_thumb i ch !! k = filter (fun n => n <> NThumb i) <$> ch !! k.
Proof. apply lookup_fmap. Qed.

Lemma thumbs_ok_detach (i : nat) (ch : gmap nat (list node)) :
  thumbs_ok ch -> thumbs_ok (detach_thumb i ch).
Proof.
  intros Hok k l. rewrite detach_thumb_lookup.
  destruct (ch !! k) as [l0|] eqn:E; [|discriminate]. intros [= <-].
  destruct (Hok k l0 E) as [Hnd Hown]. split; [by apply NoDup_filter|].
  intros j Hj. apply list_elem_of_filter in Hj as [_ Hj]. by apply Hown.
Qed.

Lemma thumbs_ok_append (i : nat) (ch : gmap nat (list node)) :
  thumbs_ok ch -> thumbs_ok (append_thumb i ch).
Proof.
  intros Hok k l. unfold append_thumb. rewrite lookup_alter.
  case_decide as Hik; [|apply (thumbs_ok_detach i ch Hok)].
  subst k. destruct (detach_thumb i ch !! i) as [l0|] eqn:E; [|discriminate].
  intros [= <-]. destruct (thumbs_ok_detach i ch Hok i l0 E) as [Hnd Hown].
  rewrite detach_thumb_lookup in E.
  destruct (ch !! i) as [l1|]; [|discriminate]. injection E as <-.
  split.
  - apply NoDup_app. split; [exact Hnd|]. split; [|apply NoDup_singleton].
    intros x Hx Hx'. apply list_elem_of_singleton in Hx' as ->.
    apply list_elem_of_filter in Hx as [Hne _]. by apply Hne.
  - intros j Hj. apply elem_of_app in Hj as [Hj|Hj]; [by apply Hown|].
    apply list_elem_of_singleton in Hj. congruence.
Qed.

Lemma step_thumbs_ok (s : carousel) (e : carousel_event) :
  thumbs_ok (children s) -> thumbs_ok (children (carousel_step L I s e)).
Proof.
  intros H. destruct e as [| |i|i]; simpl; try exact H;
    destruct (wired L i); try exact H.
  - by apply thumbs_ok_append.
  - by apply thumbs_ok_detach.
Qed.

(** The locations whose element holds their own thumbnail: the set of
    thumbnails in the document. *)
Definition thumbs_in_doc (ch : gmap nat (list node)) : gset nat :=
  dom (filter (fun kl : nat * list node => NThumb kl.1 ∈ kl.2) ch).

Lemma elem_of_thumbs_in_doc (k : nat) (ch : gmap nat (list node)) :
  k ∈ thumbs_in_doc ch <-> exists l, ch !! k = Some l /\ NThumb k ∈ l.
Proof.
  unfold thumbs_in_doc. rewrite elem_of_dom. split.
  - intros [l Hl]. apply map_lookup_filter_Some in Hl. eauto.
  - intros [l Hl]. exists l. by apply map_lookup_filter_Some.
Qed.

Lemma thumbs_in_doc_initial : thumbs_in_doc (initial_children L) = ∅.
Proof.
  apply set_eq. intros k. rewrite elem_of_thumbs_in_doc, initial_children_lookup.
  split; [|set_solver]. intros [l [Hl Hk]].
  case_decide; [|discriminate]. injection Hl as <-. set_solver.
Qed.

Lemma thumbs_in_doc_detach (i : nat) (ch : gmap nat (list node)) :
  thumbs_in_doc (detach_thumb i ch) = thumbs_in_doc ch ∖ {[i]}.
Proof.
  apply set_eq. intros k.
  rewrite elem_of_difference, elem_of_singleton, !elem_of_thumbs_in_doc.
  setoid_rewrite detach_thumb_lookup. destruct (ch !! k) as [l|]; simpl.
  - split.
    + intros [l' [[= <-] Hk]]. apply list_elem_of_filter in Hk as [Hne Hk].
      split; [eauto | congruence].
    + intros [[l' [[= <-] Hk]] Hne]. eexists; split; [reflexivity|].
      apply list_elem_of_filter. split; [congruence | exact Hk].
  - split; [intros [? [? _]]; discriminate | intros [[? [? _]] _]; discriminate].
Qed.

Lemma thumbs_in_doc_append (i : nat) (ch : gmap nat (list node)) :
  is_Some (ch !! i) ->
  thumbs_in_doc (append_thumb i ch) = {[i]} ∪ thumbs_in_doc ch.
Proof.
  intros [l0 Hl0]. apply set_eq. intros k.
  rewrite elem_of_union, elem_of_singleton, !elem_of_thumbs_in_doc.
  unfold append_thumb. rewrite lookup_alter, !detach_thumb_lookup.
  case_decide as Hik.
  - subst k. rewrite Hl0. simpl. split; [by left|]. intros _.
    eexists; split; [reflexivity | set_solver].
  - destruct (ch !! k) as [l|]; simpl.
    + split.
      * intros [l' [Hl' Hk]]. simplify_eq/=.
        apply list_elem_of_filter in Hk as [_ Hk]. right. eauto.
      * intros [->|[l' [Hl' Hk]]]; [done|]. simplify_eq/=.
        eexists; split; [reflexivity|].
        apply list_elem_of_filter. split; [congruence | exact Hk].
    + split; [intros [? [? _]]; discriminate | intros [->|[? [? _]]]; done].
Qed.

(** Every location element is in the document. *)
Definition has_locations (ch : gmap nat (list node)) : Prop :=
  forall k, k < List.length L -> is_Some (ch !! k).

Lemma has_locations_initial : has_locations (initial_children L).
Proof. intros k Hk. rewrite initial_children_lookup. case_decide; [eauto | lia]. Qed.

Lemma step_has_locations (s : carousel) (e : carousel_event) :
  has_locations (children s) -> has_locations (children (carousel_step L I s e)).
Proof.
  intros H k Hk. pose proof (H k Hk) as Hl.
  destruct e as [| |i|i]; simpl; eauto; destruct (wired L i); simpl; eauto;
    unfold append_thumb, detach_thumb;
    by rewrite ?lookup_alter_is_Some, ?lookup_fmap, ?fmap_is_Some.
Qed.

Lemma reachable_shows_current (vis0 : gset nat) (s : carousel) :
  reachable L I vis0 s -> shows_current s.
Proof.
  intros Hr. induction Hr as [|s e Hr IH];
    [apply showImage_shows | by apply step_shows].
Qed.

(** ** Properties of the page *)

(** C10: in every reachable state, a direct [img] child of
    [.image-preview] is visible only if it is the image of the current
    index, and the image of the current index is visible; so at most one
    of them is visible. *)
Theorem carousel_shows_only_current (vis0 : gset nat) (s : carousel) :
  reachable L I vis0 s ->
  (forall p, p ∈ pictures I -> p ∈ visible s ->
     js_index (scheduleImages L I) (currentImageIndex s) = Some p) /\
  (forall i, js_index (scheduleImages L I) (currentImageIndex s) = Some i ->
     i ∈ visible s).
Proof.
  apply reachable_shows_current.
Qed.

(** C11: in every reachable state, each location element holds at most
    one thumbnail node, and only its own: hovering never duplicates a
    thumbnail and never moves one to another location. *)
Theorem carousel_thumbnail_unique (vis0 : gset nat) (s : carousel) :
  reachable L I vis0 s ->
  forall k l, children s !! k = Some l ->
    NoDup l /\ forall i, NThumb i ∈ l -> i = k.
Proof.
  intros Hr. induction Hr as [|s e Hr IH];
    [apply thumbs_ok_initial | by apply step_thumbs_ok].
Qed.

(** C12: leaving a wired location removes its thumbnail from the
    document and hides it; entering it puts the thumbnail last in the
    location element, shows it, and moves the index to the location. *)
Theorem carousel_hover_lifecycle (s : carousel) (i : nat) :
  wired L i = true ->
  (forall k l, children (carousel_step L I s (ELeave i)) !! k = Some l ->
     NThumb i ∉ l) /\
  (i ∉ thumb_visible (carousel_step L I s (ELeave i))) /\
  (forall l, children s !! i = Some l ->
     exists l', children (carousel_step L I s (EEnter i)) !! i =
                Some ((l' ++ [NThumb i])%list) /\ NThumb i ∉ l') /\
  i ∈ thumb_visible (carousel_step L I s (EEnter i)) /\
  currentImageIndex (carousel_step L I s (EEnter i)) = JsInt (Z.of_nat i).
Proof.
  intros Hw. simpl. rewrite Hw. simpl. split; [|split; [set_solver|split; [|split; [set_solver|reflexivity]]]].
  - intros k l. rewrite detach_thumb_lookup.
    destruct (children s !! k); [|discriminate]. intros [= <-].
    rewrite list_elem_of_filter. tauto.
  - intros l Hl. unfold append_thumb. rewrite lookup_alter_eq, detach_thumb_lookup, Hl.
    eexists; split; [reflexivity|]. rewrite list_elem_of_filter. tauto.
Qed.

End CarouselDom.

(** ** The page refines the abstract carousel *)

Section CarouselRefinement.
Context (scheduleLocations : list string) (images : list img).
Abbreviation L := scheduleLocations.
Abbreviation I := images.
Abbreviation n := (Z.of_nat (List.length L)).

(** The abstraction of a page state: its index, when it is an integer,
    and the thumbnails in the document. *)
Definition carousel_abs (s : carousel) : option cursor :=
  match currentImageIndex s with
  | JsInt z => Some (mkCursor z (thumbs_in_doc (children s)))
  | JsNaN => None
  end.

(** The invariant under which one page step is one abstract step. *)
Definition sim_inv (s : carousel) : Prop :=
  index_in_range L s /\ has_locations L (children s).

Lemma sim_inv_load (vis0 : gset nat) :
  (0 < List.length L)%nat -> sim_inv (load L I vis0).
Proof.
  intros Hl. split; [by apply index_in_range_load | apply has_locations_initial].
Qed.

Lemma sim_inv_step (s : carousel) (e : carousel_event) :
  (0 < List.length L)%nat -> sim_inv s -> sim_inv (carousel_step L I s e).
Proof.
  intros Hl [Hr Hc]. split; [by apply step_index_in_range | by apply step_has_locations].
Qed.

Lemma reachable_sim_inv (vis0 : gset nat) (s : carousel) :
  (0 < List.length L)%nat -> reachable L I vis0 s -> sim_inv s.
Proof.
  intros Hl Hr. induction Hr; [by apply sim_inv_load | by apply sim_inv_step].
Qed.

Lemma carousel_abs_load (vis0 : gset nat) :
  carousel_abs (load L I vis0) = Some (mkCursor 0 ∅).
Proof. unfold carousel_abs. simpl. by rewrite thumbs_in_doc_initial. Qed.

(** The simulation diagram: under the invariant, a page step is mapped
    by the abstraction to the abstract step of the same event. *)
Lemma carousel_abs_step (s : carousel) (e : carousel_event) (c : cursor) :
  sim_inv s -> carousel_abs s = Some c ->
  carousel_abs (carousel_step L I s e) = Some (cursor_step n (wired L) c e).
Proof.
  intros [[z [Hz Hzr]] Hloc]. unfold carousel_abs. rewrite Hz. intros [= <-].
  destruct e as [| |i|i]; simpl.
  - unfold next. rewrite Hz, images_length_eq, js_next_index by lia. reflexivity.
  - unfold previous. rewrite Hz, images_length_eq, js_prev_index by lia. reflexivity.
  - destruct (wired L i) eqn:Hw; [|by rewrite Hz]. simpl.
    rewrite thumbs_in_doc_append; [reflexivity|]. by apply Hloc, (wired_lt L).
  - destruct (wired L i); [|by rewrite Hz]. simpl. by rewrite Hz, thumbs_in_doc_detach.
Qed.

Lemma carousel_abs_run (s : carousel) (c : cursor) (es : list carousel_event) :
  (0 < List.length L)%nat -> sim_inv s -> carousel_abs s = Some c ->
  carousel_abs (carousel_run L I s es) = Some (cursor_run n (wired L) c es).
Proof.
  intros Hl. revert s c. induction es as [|e es IH]; intros s c Hs Hc; [done|].
  apply IH; [by apply sim_inv_step | by apply carousel_abs_step].
Qed.

(** C31: every sequence of clicks and hovers from the page as loaded is
    simulated by the abstract carousel: the index is the abstract
    position and the thumbnails in the document are the abstract set. *)
Theorem carousel_refines_cursor (vis0 : gset nat) (es : list carousel_event) :
  (0 < List.length L)%nat ->
  carousel_abs (carousel_run L I (load L I vis0) es) =
    Some (cursor_run n (wired L) (mkCursor 0 ∅) es).
Proof.
  intros Hl. apply carousel_abs_run; [done | by apply sim_inv_load | apply carousel_abs_load].
Qed.

(** ** Representation invariant of the thumbnails *)

Lemma step_thumb_visible (s : carousel) (e : carousel_event) :
  has_locations L (children s) -> thumb_visible s = thumbs_in_doc (children s) ->
  thumb_visible (carousel_step L I s e) = thumbs_in_doc (children (carousel_step L I s e)).
Proof.
  intros Hloc Ht. destruct e as [| |i|i]; simpl; try exact Ht;
    destruct (wired L i) eqn:Hw; try exact Ht; simpl.
  - rewrite thumbs_in_doc_append, Ht; [done|]. by apply Hloc, (wired_lt L).
  - by rewrite thumbs_in_doc_detach, Ht.
Qed.

(** C32: in every reachable state a thumbnail is shown exactly when it
    is attached to its location element: [show] and [appendTo] on
    entering, [hide] and [detach] on leaving, always go together. *)
Theorem carousel_thumb_shown_iff_attached (vis0 : gset nat) (s : carousel) :
  reachable L I vis0 s -> thumb_visible s = thumbs_in_doc (children s).
Proof.
  intros Hr. cut (has_locations L (children s) /\ thumb_visible s = thumbs_in_doc (children s));
    [tauto|].
  induction Hr as [|s e Hr [Hloc Ht]].
  - split; [apply has_locations_initial | symmetry; apply thumbs_in_doc_initial].
  - split; [by apply step_has_locations | by apply step_thumb_visible].
Qed.

(** ** [.previous] against [.next]

    Every image the locations select is a direct child of
    [.image-preview], so [showImage] hides it again: decided by
    evaluation on a page. *)
Definition targets_direct : bool :=
  forallb (fun o => match o with
                    | Some t => bool_decide (t ∈ pictures I)
                    | None => true
                    end) (scheduleImages L I).

Lemma targets_direct_spec (t : nat) :
  targets_direct = true -> Some t ∈ scheduleImages L I -> t ∈ pictures I.
Proof.
  unfold targets_direct. rewrite forallb_forall. intros H Ht.
  apply list_elem_of_In, H in Ht. by apply bool_decide_eq_true in Ht.
Qed.

(** With direct targets, a second [showImage] forgets the first. *)
Lemma showImage_showImage (a b : jsnum) (s : carousel) :
  targets_direct = true -> showImage L I b (showImage L I a s) = showImage L I b s.
Proof.
  intros Ht. unfold showImage at 1 3. simpl. f_equal.
  destruct (js_index (scheduleImages L I) a) as [ia|] eqn:Ea;
    [apply js_index_elem, (targets_direct_spec _ Ht) in Ea|];
    destruct (js_index (scheduleImages L I) b); set_solver.
Qed.

(** Showing the image of the current index changes nothing in a state
    that already shows it. *)
Lemma showImage_current (s : carousel) :
  targets_direct = true -> shows_current L I s ->
  showImage L I (currentImageIndex s) s = s.
Proof.
  destruct s as [idx v ch tv]. unfold showImage, shows_current. simpl.
  intros Ht [H1 H2]. f_equal. apply set_eq. intros x.
  destruct (js_index (scheduleImages L I) idx) as [t|] eqn:E.
  - rewrite elem_of_union, elem_of_singleton, elem_of_difference, elem_of_list_to_set.
    split; [intros [->|[Hx _]]; [by apply H2 | exact Hx]|]. intros Hx.
    destruct (decide (x ∈ pictures I)) as [Hp|Hp]; [|by right].
    left. specialize (H1 x Hp Hx). congruence.
  - rewrite elem_of_difference, elem_of_list_to_set. split; [tauto|]. intros Hx.
    split; [exact Hx|]. intros Hp. specialize (H1 x Hp Hx). congruence.
Qed.

Lemma next_iter_showImage (k : nat) (s : carousel) :
  targets_direct = true ->
  Nat.iter (S k) (next L I) s =
    showImage L I (currentImageIndex (Nat.iter (S k) (next L I) s)) s.
Proof.
  intros Ht. induction k as [|k IH]; [reflexivity|].
  change (Nat.iter (S (S k)) (next L I) s) with (next L I (Nat.iter (S k) (next L I) s)).
  rewrite IH at 1. unfold next at 1. rewrite showImage_showImage by exact Ht.
  reflexivity.
Qed.

(** C33: when every location's image is a direct child of
    [.image-preview], one click on [.previous] leaves the page exactly
    as [imageCount - 1] clicks on [.next] do, in every reachable state. *)
Theorem previous_is_next_iter (vis0 : gset nat) (s : carousel) :
  targets_direct = true -> (0 < List.length L)%nat -> reachable L I vis0 s ->
  previous L I s = Nat.iter (List.length L - 1) (next L I) s.
Proof.
  intros Ht Hl Hr.
  destruct (reachable_sim_inv vis0 s Hl Hr) as [[z [Hz Hzr]] _].
  pose proof (reachable_shows_current L I vis0 s Hr) as Hsc.
  unfold previous. rewrite Hz, images_length_eq, js_prev_index by lia.
  destruct (List.length L - 1)%nat as [|k] eqn:Hk.
  - cbn [Nat.iter]. assert (z = 0) as -> by lia.
    replace ((0 - 1) mod n) with 0 by (replace n with 1 by lia; reflexivity).
    rewrite <- Hz. by apply showImage_current.
  - rewrite next_iter_showImage by exact Ht. f_equal.
    assert (Hp : carousel_pos s = Some z) by (unfold carousel_pos; by rewrite Hz).
    pose proof (@cc_next_iter _ _ (carousel_cursor_laws L I ltac:(lia)) (S k) s z Hp
                  ltac:(simpl; lia)) as Hit.
    apply pos_index in Hit.
    change (currentImageIndex (Nat.iter (S k) (next L I) s) =
            JsInt ((z + Z.of_nat (S k)) mod n)) in Hit.
    rewrite Hit. f_equal.
    rewrite <- (Z_mod_plus_full (z - 1) 1). f_equal. lia.
Qed.

End CarouselRefinement.


(** ** Witnesses on a concrete page: three locations, three images *)

Local Open Scope nat_scope.

Definition demo_locations : list string :=
  ["Keller Hall 3-115"; "Home"; "Walter Library B28"].

Definition demo_images : list img :=
  [mkImg 1 "/img/keller.jpg" true; mkImg 2 "/img/home.jpg" true;
   mkImg 3 "/img/walter.jpg" true].

Lemma carousel_next_clicks_witness :
  (0 < List.length demo_locations)%nat /\
  currentImageIndex (carousel_run demo_locations demo_images
     (load demo_locations demo_images ∅) (repeat ENext 4)) = JsInt 1.
Proof.
  split; [simpl; lia|].
  exact (carousel_next_clicks demo_locations demo_images ∅ 4 ltac:(simpl; lia)).
Defined.

Lemma carousel_previous_clicks_witness :
  (0 < List.length demo_locations)%nat /\
  currentImageIndex (carousel_run demo_locations demo_images
     (load demo_locations demo_images ∅) (repeat EPrevious 4)) = JsInt 2.
Proof.
  split; [simpl; lia|].
  exact (carousel_previous_clicks demo_locations demo_images ∅ 4 ltac:(simpl; lia)).
Defined.

Lemma carousel_index_in_range_witness :
  exists z, currentImageIndex (carousel_step demo_locations demo_images
              (load demo_locations demo_images ∅) EPrevious) = JsInt z /\
            (0 <= z < Z.of_nat (List.length demo_locations))%Z.
Proof.
  apply (carousel_index_in_range demo_locations demo_images ∅); [simpl; lia|].
  apply reach_step, reach_load.
Defined.

Lemma carousel_empty_nan_witness :
  currentImageIndex (next [] demo_images (load [] demo_images ∅)) = JsNaN /\
  currentImageIndex (previous [] demo_images (load [] demo_images ∅)) = JsNaN.
Proof. apply carousel_empty_nan. reflexivity. Defined.

Lemma carousel_shows_only_current_witness :
  let s := carousel_step demo_locations demo_images
             (load demo_locations demo_images {[1; 2; 3]}) (EEnter 2) in
  (forall p, p ∈ pictures demo_images -> p ∈ visible s ->
     js_index (scheduleImages demo_locations demo_images) (currentImageIndex s) = Some p) /\
  (forall i, js_index (scheduleImages demo_locations demo_images) (currentImageIndex s) = Some i ->
     i ∈ visible s).
Proof.
  apply (carousel_shows_only_current demo_locations demo_images {[1; 2; 3]}).
  apply reach_step, reach_load.
Defined.

Lemma carousel_thumbnail_unique_witness :
  children (carousel_run demo_locations demo_images
              (load demo_locations demo_images ∅) [EEnter 0; EEnter 0; EEnter 2]) !! 0
    = Some [NText; NThumb 0] /\
  NoDup [NText; NThumb 0].
Proof.
  split; [reflexivity|].
  refine (proj1 (carousel_thumbnail_unique demo_locations demo_images ∅
           (carousel_run demo_locations demo_images
              (load demo_locations demo_images ∅) [EEnter 0; EEnter 0; EEnter 2])
           _ 0 _ _)).
  - do 3 apply reach_step. apply reach_load.
  - reflexivity.
Defined.

Lemma carousel_hover_lifecycle_witness :
  wired demo_locations 0 = true /\
  currentImageIndex (carousel_step demo_locations demo_images
    (load demo_locations demo_images ∅) (EEnter 0)) = JsInt 0.
Proof.
  split; [reflexivity|].
  apply (carousel_hover_lifecycle demo_locations demo_images
           (load demo_locations demo_images ∅) 0). reflexivity.
Defined.

Lemma carousel_refines_cursor_witness :
  (0 < List.length demo_locations)%nat /\
  carousel_abs (carousel_run demo_locations demo_images (load demo_locations demo_images ∅)
                  [ENext; EEnter 2; ELeave 2; EEnter 0; EPrevious]) =
    Some (mkCursor 2 {[0]}).
Proof.
  split; [simpl; lia|].
  rewrite (carousel_refines_cursor demo_locations demo_images ∅ _ ltac:(simpl; lia)).
  reflexivity.
Defined.

Lemma carousel_thumb_shown_iff_attached_witness :
  let s := carousel_run demo_locations demo_images (load demo_locations demo_images ∅)
             [EEnter 1; EEnter 2; ELeave 1] in
  thumb_visible s = thumbs_in_doc (children s) /\ thumb_visible s = {[2]}.
Proof.
  split; [|reflexivity].
  apply (carousel_thumb_shown_iff_attached demo_locations demo_images ∅).
  do 3 apply reach_step. apply reach_load.
Defined.

Lemma previous_is_next_iter_witness :
  targets_direct demo_locations demo_images = true /\
  previous demo_locations demo_images
    (carousel_step demo_locations demo_images (load demo_locations demo_images ∅) ENext) =
  Nat.iter 2 (next demo_locations demo_images)
    (carousel_step demo_locations demo_images (load demo_locations demo_images ∅) ENext).
Proof.
  split; [vm_compute; reflexivity|].
  apply (previous_is_next_iter demo_locations demo_images ∅);
    [vm_compute; reflexivity | simpl; lia | apply reach_step, reach_load].
Defined.
