(* ===== verification/AboutMe.v ===== *)
(** * The about-me page (src/static/js/script_aboutme.js)

    [updateClocks] (lines 1-29) runs once at load and then every second
    (lines 41-42).  For every [.clock-card] it formats the current instant
    in the card's time zone with [Intl.DateTimeFormat] (24-hour, two
    digits per field), splits the text into hours, minutes and seconds
    with [split] and [Number], and turns them into the rotation of the
    three hands, computed in doubles:
    [seconds * 6], [minutes * 6 + seconds * 0.1] and
    [hours % 12 * 30 + minutes * 0.5].

    The click handler of [.toggle-btn] (lines 33-38) flips the class
    [expanded] of the enclosing [.gistcontainer] and shows [.show-more]
    exactly when the container is not expanded, [.show-less] exactly when
    it is.

    - Module [Clock]: [intl_format] (the formatter, modelled from its
      specification), [clock_fields], the three angle functions,
      [clock_hands] and [updateClocks].  A field is an [option Z]:
      [None] is a field that is missing or not a decimal integer, which
      JavaScript turns into [NaN].  The remainder [hours % 12] is taken
      on the integer ([Z.rem], exact below 2^53).
      The hands are written as the CSS texts [rotate(<angle>deg)]
      through [number_to_string] of [JsNumber]; [clock_step] runs the
      load handler (one eager draw, then the timer) and the ticks.
    - Module [Gist]: the state of one container and [toggle_click]. *)

From stdpp Require Import base list strings.
From Stdlib Require Import String Ascii ZArith Lia Floats QArith Qabs.
From S2P Require Import Prelude JsString JsValue JsNumber.
Open Scope js_scope.
Open Scope string_scope.
Open Scope nat_scope.

Module Clock.

(** ** The formatter

    [new Intl.DateTimeFormat('en-US', {hour: '2-digit', minute:
    '2-digit', second: '2-digit', hour12: false}).format(date)]: the
    fields of the reading, two digits each, separated by colons. *)

Definition pad2 (n : nat) : string :=
  if Nat.ltb n 10 then "0" ++ z_to_decimal (Z.of_nat n) else z_to_decimal (Z.of_nat n).

Definition intl_format (h m s : nat) : string :=
  pad2 h ++ ":" ++ pad2 m ++ ":" ++ pad2 s.

(** ** Lines 16-17: the text split into numbers *)

Definition field (parts : list (option Z)) (i : nat) : option Z :=
  match parts !! i with
  | Some x => x
  | None => None
  end.

Definition clock_fields (timeString : string) : option Z * option Z * option Z :=
  let timePart := match js_split " "%char timeString with
                  | p :: _ => p
                  | [] => EmptyString
                  end in
  let parts := map js_Number (js_split ":"%char timePart) in
  (field parts 0, field parts 1, field parts 2).

(** ** Lines 20-22: the angles, in doubles *)

Definition num (x : option Z) : float :=
  match x with
  | Some z => js_num_of_Z z
  | None => PrimFloat.nan
  end.

Definition rem12 (x : option Z) : float :=
  match x with
  | Some z => js_num_of_Z (Z.rem z 12)
  | None => PrimFloat.nan
  end.

Definition seconds_angle (seconds : option Z) : float :=
  (num seconds * 6)%float.

#[warnings="-inexact-float"]
Definition minutes_angle (minutes seconds : option Z) : float :=
  (num minutes * 6 + num seconds * 0.1)%float.

Definition hours_angle (hours minutes : option Z) : float :=
  (rem12 hours * 30 + num minutes * 0.5)%float.

Record hands : Type := mkHands {
  second_deg : float;
  minute_deg : float;
  hour_deg : float
}.

(** Lines 14-27 for one card: the three rotations applied to the hands. *)
Definition clock_hands (timeString : string) : hands :=
  let '(hours, minutes, seconds) := clock_fields timeString in
  mkHands (seconds_angle seconds) (minutes_angle minutes seconds)
          (hours_angle hours minutes).

(** Lines 1-29: every card, from its time zone and the reading of the
    clock in that zone. *)
Definition updateClocks (cards : list string) (now : string -> nat * nat * nat)
    : list hands :=
  map (fun timeZone => let '(h, m, s) := now timeZone in
                       clock_hands (intl_format h m s)) cards.

(** ** Lines 24-27: the hands' CSS

    The template literal applies ToString ([number_to_string]) to the
    angle. *)
Definition css_rotate (deg : float) : string :=
  "rotate(" ++ number_to_string deg ++ "deg)".

Record card_style : Type := mkCardStyle {
  second_css : string;
  minute_css : string;
  hour_css : string
}.

Definition render (h : hands) : card_style :=
  mkCardStyle (css_rotate (second_deg h)) (css_rotate (minute_deg h))
              (css_rotate (hour_deg h)).

(** What one run of [updateClocks] writes into the cards. *)
Definition clock_styles (cards : list string) (now : string -> nat * nat * nat)
    : list card_style :=
  map render (updateClocks cards now).

(** ** Lines 31-43: the page's clocks over time

    The ready handler registers the timer (line 41) and calls
    [updateClocks] at once (line 42); every tick of the timer calls it
    again with the time of the tick.  The state is whether the timer is
    registered and the styles of the cards. *)
Record clock_page : Type := mkClockPage {
  timer_set : bool;
  card_styles : list card_style
}.

Inductive clock_event : Type :=
| PageReady (now : string -> nat * nat * nat)
| TimerTick (now : string -> nat * nat * nat).

(** [None]: the event cannot happen (the ready handler runs once, the
    timer ticks only once registered). *)
Definition clock_step (cards : list string) (p : clock_page) (e : clock_event)
    : option clock_page :=
  match e with
  | PageReady now =>
      if timer_set p then None else Some (mkClockPage true (clock_styles cards now))
  | TimerTick now =>
      if timer_set p then Some (mkClockPage true (clock_styles cards now)) else None
  end.

Fixpoint clock_run (cards : list string) (p : clock_page) (es : list clock_event)
    : option clock_page :=
  match es with
  | [] => Some p
  | e :: rest =>
      match clock_step cards p e with
      | Some p' => clock_run cards p' rest
      | None => None
      end
  end.

End Clock.

Module Gist.

(** The class [expanded] of a [.gistcontainer] and the visibility of its
    [.show-more] and [.show-less] elements. *)
Record gist : Type := mkGist {
  expanded : bool;
  more_shown : bool;
  less_shown : bool
}.

(** Lines 33-38. *)
Definition toggle_click (g : gist) : gist :=
  let e := negb (expanded g) in
  mkGist e (negb e) e.

End Gist.

Module ClockProofs.
Import Clock.

(** ** The formatted text read back *)

Definition pad2_ok (n : nat) : bool :=
  negb (has_char ":"%char (pad2 n)) && negb (has_char " "%char (pad2 n)) &&
  bool_decide (js_Number (pad2 n) = Some (Z.of_nat n)).

Lemma pad2_ok_below_100 (n : nat) : n < 100 -> pad2_ok n = true.
Proof.
  intros Hn. apply (forallb_seq_spec pad2_ok 0 100); [vm_compute; reflexivity | lia].
Qed.

Lemma pad2_facts (n : nat) :
  n < 100 ->
  has_char ":"%char (pad2 n) = false /\ has_char " "%char (pad2 n) = false /\
  js_Number (pad2 n) = Some (Z.of_nat n).
Proof.
  intros Hn. pose proof (pad2_ok_below_100 n Hn) as H. unfold pad2_ok in H.
  apply andb_prop in H as [H H3]. apply andb_prop in H as [H1 H2].
  apply negb_true_iff in H1, H2. apply bool_decide_eq_true in H3. auto.
Qed.

(** The formatted text has no space and splits on the colons into the
    three padded fields. *)
Lemma intl_format_split (h m s : nat) :
  h < 100 -> m < 100 -> s < 100 ->
  js_split " "%char (intl_format h m s) = [intl_format h m s] /\
  js_split ":"%char (intl_format h m s) = [pad2 h; pad2 m; pad2 s].
Proof.
  intros Hh Hm Hs.
  destruct (pad2_facts h Hh) as (Hh1 & Hh2 & _).
  destruct (pad2_facts m Hm) as (Hm1 & Hm2 & _).
  destruct (pad2_facts s Hs) as (Hs1 & Hs2 & _).
  unfold intl_format. split.
  - apply js_split_none. rewrite !has_char_app, Hh2, Hm2, Hs2. reflexivity.
  - change (":" ++ ?x) with (String ":"%char x).
    rewrite js_split_app by assumption.
    change (":" ++ pad2 s) with (String ":"%char (pad2 s)).
    rewrite js_split_app, js_split_none by assumption. reflexivity.
Qed.

(** C20: the text of the formatter splits back into the reading: for
    fields below 100, [clock_fields] of the formatted text gives the
    hours, minutes and seconds it was made from. *)
Theorem clock_fields_intl_format (h m s : nat) :
  h < 100 -> m < 100 -> s < 100 ->
  clock_fields (intl_format h m s) =
    (Some (Z.of_nat h), Some (Z.of_nat m), Some (Z.of_nat s)).
Proof.
  intros Hh Hm Hs. destruct (intl_format_split h m s Hh Hm Hs) as [H1 H2].
  unfold clock_fields. rewrite H1, H2. unfold field. simpl.
  rewrite (proj2 (proj2 (pad2_facts h Hh))), (proj2 (proj2 (pad2_facts m Hm))),
    (proj2 (proj2 (pad2_facts s Hs))).
  reflexivity.
Qed.

Lemma clock_fields_intl_format_witness :
  clock_fields (intl_format 9 5 3) = (Some 9%Z, Some 5%Z, Some 3%Z).
Proof. apply (clock_fields_intl_format 9 5 3); lia. Defined.

(** ** The angles, checked on the whole domain *)

(** The double [z / 2] (exact for the hour hand's values). *)
Definition half_of_Z (z : Z) : float :=
  SF2Prim (SpecFloat.binary_normalize FloatOps.prec FloatOps.emax z (-1) false).

(** The rational value of a finite double. *)
Definition float_to_Q (x : float) : option Q :=
  match Prim2SF x with
  | S754_zero _ => Some 0%Q
  | S754_finite b m e =>
      let v := if b then Z.neg m else Z.pos m in
      Some (if Z.leb 0 e then inject_Z (v * 2 ^ e)
            else Qmake v (Pos.pow 2 (Z.to_pos (- e))))
  | _ => None
  end.

Definition in_dial (x : float) : bool := (0 <=? x)%float && (x <? 360)%float.

(** The error bound of the minute hand: 2^-40 degree. *)
Definition minute_close (m s : nat) : bool :=
  match float_to_Q (minutes_angle (Some (Z.of_nat m)) (Some (Z.of_nat s))) with
  | Some q => Qle_bool (Qabs (q - Qmake (60 * Z.of_nat m + Z.of_nat s) 10)%Q)
                       (Qmake 1 (Pos.pow 2 40))
  | None => false
  end.

Definition seconds_ok (s : nat) : bool :=
  PrimFloat.Leibniz.eqb (seconds_angle (Some (Z.of_nat s))) (js_num_of_Z (6 * Z.of_nat s))
  && in_dial (seconds_angle (Some (Z.of_nat s))).

Definition minutes_ok (m : nat) : bool :=
  forallb (fun s => minute_close m s &&
                    in_dial (minutes_angle (Some (Z.of_nat m)) (Some (Z.of_nat s))))
          (seq 0 60).

Definition hours_ok (h : nat) : bool :=
  forallb (fun m =>
             PrimFloat.Leibniz.eqb (hours_angle (Some (Z.of_nat h)) (Some (Z.of_nat m)))
               (half_of_Z (60 * Z.rem (Z.of_nat h) 12 + Z.of_nat m))
             && in_dial (hours_angle (Some (Z.of_nat h)) (Some (Z.of_nat m))))
          (seq 0 60).

Lemma seconds_ok_all (s : nat) : s < 60 -> seconds_ok s = true.
Proof. intros. apply (forallb_seq_spec seconds_ok 0 60); [vm_compute; reflexivity | lia]. Qed.

Lemma minutes_ok_all (m : nat) : m < 60 -> minutes_ok m = true.
Proof. intros. apply (forallb_seq_spec minutes_ok 0 60); [vm_compute; reflexivity | lia]. Qed.

Lemma hours_ok_all (h : nat) : h <= 24 -> hours_ok h = true.
Proof. intros. apply (forallb_seq_spec hours_ok 0 25); [vm_compute; reflexivity | lia]. Qed.

Lemma forallb_seq_at (f : nat -> bool) (n k : nat) :
  forallb f (seq 0 n) = true -> k < n -> f k = true.
Proof. intros H Hk. apply (forallb_seq_spec f 0 n H). lia. Qed.

Lemma updateClocks_lookup (cards : list string) (now : string -> nat * nat * nat)
    (k : nat) (tz : string) (h m s : nat) :
  cards !! k = Some tz -> now tz = (h, m, s) ->
  updateClocks cards now !! k = Some (clock_hands (intl_format h m s)).
Proof.
  intros Hk Hnow. unfold updateClocks. rewrite list_lookup_fmap, Hk. simpl.
  by rewrite Hnow.
Qed.

Lemma clock_hands_reading (h m s : nat) :
  h < 100 -> m < 100 -> s < 100 ->
  clock_hands (intl_format h m s) =
    mkHands (seconds_angle (Some (Z.of_nat s)))
            (minutes_angle (Some (Z.of_nat m)) (Some (Z.of_nat s)))
            (hours_angle (Some (Z.of_nat h)) (Some (Z.of_nat m))).
Proof.
  intros Hh Hm Hs. destruct (intl_format_split h m s Hh Hm Hs) as [H1 H2].
  unfold clock_hands, clock_fields. rewrite H1, H2. unfold field. simpl.
  rewrite (proj2 (proj2 (pad2_facts h Hh))), (proj2 (proj2 (pad2_facts m Hm))),
    (proj2 (proj2 (pad2_facts s Hs))).
  reflexivity.
Qed.

(** C19: for every reading of a card with hours up to 24 and minutes and
    seconds below 60, the three hands [updateClocks] sets are inside the
    dial [0, 360); the second hand is exactly [6 * seconds] and the hour
    hand exactly [30 * (hours mod 12) + minutes / 2], while the minute
    hand is within 2^-40 degree of [6 * minutes + seconds / 10] (it is
    computed with the double nearest to 0.1, so not always exactly). *)
Theorem updateClocks_hands (cards : list string) (now : string -> nat * nat * nat)
    (k : nat) (tz : string) (h m s : nat) :
  cards !! k = Some tz -> now tz = (h, m, s) -> h <= 24 -> m < 60 -> s < 60 ->
  exists hd q,
    updateClocks cards now !! k = Some hd /\
    second_deg hd = js_num_of_Z (6 * Z.of_nat s) /\
    hour_deg hd = half_of_Z (60 * Z.rem (Z.of_nat h) 12 + Z.of_nat m) /\
    float_to_Q (minute_deg hd) = Some q /\
    Qle (Qabs (q - Qmake (60 * Z.of_nat m + Z.of_nat s) 10)%Q) (Qmake 1 (Pos.pow 2 40)) /\
    in_dial (second_deg hd) && in_dial (minute_deg hd) && in_dial (hour_deg hd) = true.
Proof.
  intros Hk Hnow Hh Hm Hs.
  pose proof (seconds_ok_all s Hs) as HS. unfold seconds_ok in HS.
  pose proof (forallb_seq_at _ 60 s (minutes_ok_all m Hm) Hs) as HM.
  pose proof (forallb_seq_at _ 60 m (hours_ok_all h Hh) Hm) as HH.
  simpl in HM, HH.
  apply andb_prop in HS as [HS1 HS2]; apply andb_prop in HM as [HM1 HM2];
  apply andb_prop in HH as [HH1 HH2].
  apply FloatAxioms.Leibniz.eqb_spec in HS1, HH1.
  unfold minute_close in HM1.
  destruct (float_to_Q _) as [q|] eqn:Hq; [|discriminate].
  exists (mkHands (seconds_angle (Some (Z.of_nat s)))
            (minutes_angle (Some (Z.of_nat m)) (Some (Z.of_nat s)))
            (hours_angle (Some (Z.of_nat h)) (Some (Z.of_nat m)))), q.
  rewrite (updateClocks_lookup cards now k tz h m s Hk Hnow).
  rewrite clock_hands_reading by lia. cbn [second_deg minute_deg hour_deg].
  rewrite HS2, HM2, HH2, Hq, HS1, HH1.
  repeat split; try reflexivity. by apply Qle_bool_iff.
Qed.

Lemma updateClocks_hands_witness :
  exists hd q,
    updateClocks ["America/Chicago"] (fun _ => (23, 59, 59)) !! 0 = Some hd /\
    second_deg hd = js_num_of_Z (6 * 59) /\
    hour_deg hd = half_of_Z (60 * Z.rem 23 12 + 59) /\
    float_to_Q (minute_deg hd) = Some q /\
    Qle (Qabs (q - Qmake (60 * 59 + 59) 10)%Q) (Qmake 1 (Pos.pow 2 40)) /\
    in_dial (second_deg hd) && in_dial (minute_deg hd) && in_dial (hour_deg hd) = true.
Proof.
  exact (updateClocks_hands ["America/Chicago"] (fun _ => (23, 59, 59)) 0
           "America/Chicago" 23 59 59 eq_refl eq_refl
           ltac:(lia) ltac:(lia) ltac:(lia)).
Defined.


(** ** The CSS texts, checked on the whole domain *)

(** The decimal of [z / 2] and of [z / 10], as exact decimals. *)
Definition half_text (z : Z) : string :=
  if Z.even z then z_to_decimal (z / 2) else z_to_decimal (z / 2) ++ ".5".

Definition tenth_text (z : Z) : string :=
  if Z.eqb (Z.rem z 10) 0 then z_to_decimal (z / 10)
  else z_to_decimal (z / 10) ++ "." ++ z_to_decimal (Z.rem z 10).

(** The readings (minutes, seconds) where the minute hand's double is
    not the double nearest to [6 * minutes + seconds / 10]. *)
Definition minute_artifacts : list (nat * nat) :=
  [(0, 3); (0, 6); (0, 7); (0, 12); (0, 14); (0, 17); (0, 19); (0, 23); (0, 24);
   (0, 28); (0, 29); (0, 33); (0, 34); (0, 38); (0, 39); (0, 41); (0, 46); (0, 48);
   (0, 51); (0, 53); (0, 56); (0, 58); (1, 41); (1, 46); (1, 51); (1, 56)].

Definition is_artifact (m s : nat) : bool :=
  existsb (fun '(a, b) => Nat.eqb a m && Nat.eqb b s) minute_artifacts.

Definition second_text_ok (s : nat) : bool :=
  String.eqb (number_to_string (seconds_angle (Some (Z.of_nat s)))) (z_to_decimal (6 * Z.of_nat s)).

Definition hour_text_ok (h : nat) : bool :=
  forallb (fun m => String.eqb (number_to_string (hours_angle (Some (Z.of_nat h)) (Some (Z.of_nat m))))
                               (half_text (60 * Z.rem (Z.of_nat h) 12 + Z.of_nat m)))
          (seq 0 60).

Definition minute_text_ok (m : nat) : bool :=
  forallb (fun s => Bool.eqb
             (String.eqb (number_to_string (minutes_angle (Some (Z.of_nat m)) (Some (Z.of_nat s))))
                         (tenth_text (60 * Z.of_nat m + Z.of_nat s)))
             (negb (is_artifact m s)))
          (seq 0 60).

Lemma second_text_all (s : nat) : s < 60 -> second_text_ok s = true.
Proof. intros. apply (forallb_seq_spec second_text_ok 0 60); [vm_compute; reflexivity | lia]. Qed.

Lemma hour_text_all (h : nat) : h <= 24 -> hour_text_ok h = true.
Proof. intros. apply (forallb_seq_spec hour_text_ok 0 25); [vm_compute; reflexivity | lia]. Qed.

Lemma minute_text_all (m : nat) : m < 60 -> minute_text_ok m = true.
Proof. intros. apply (forallb_seq_spec minute_text_ok 0 60); [vm_compute; reflexivity | lia]. Qed.

Lemma is_artifact_spec (m s : nat) : is_artifact m s = true <-> (m, s) ∈ minute_artifacts.
Proof.
  unfold is_artifact. rewrite existsb_exists, list_elem_of_In. split.
  - intros [[a b] [Hin Hab]]. apply andb_prop in Hab as [Ha Hb].
    apply Nat.eqb_eq in Ha, Hb. by subst.
  - intros Hin. exists (m, s). split; [exact Hin|]. by rewrite !Nat.eqb_refl.
Qed.

Lemma css_rotate_inj (a b : string) :
  ("rotate(" ++ a ++ "deg)")%string = ("rotate(" ++ b ++ "deg)")%string -> a = b.
Proof.
  intros H. injection H as H. change ((a ++ "deg)") = (b ++ "deg)"))%string in H.
  exact (string_app_inj_r _ _ _ H).
Qed.

Lemma clock_styles_lookup (cards : list string) (now : string -> nat * nat * nat)
    (k : nat) (tz : string) (h m s : nat) :
  cards !! k = Some tz -> now tz = (h, m, s) ->
  clock_styles cards now !! k = Some (render (clock_hands (intl_format h m s))).
Proof.
  intros Hk Hnow. unfold clock_styles. rewrite list_lookup_fmap.
  by rewrite (updateClocks_lookup cards now k tz h m s Hk Hnow).
Qed.

(** C39: for every reading with hours up to 24 and minutes and seconds
    below 60, the transform written on the second hand is
    [rotate(S deg)] with [S] the exact decimal of [6 * seconds], the one
    on the hour hand the exact decimal of [30 * (hours mod 12) +
    minutes / 2]; the one on the minute hand is the exact decimal of
    [6 * minutes + seconds / 10] except at 26 readings of the first two
    minutes of the hour, where the double's own digits show (as in
    [rotate(0.30000000000000004deg)] at 00:00:03). *)
Theorem clock_css_texts (cards : list string) (now : string -> nat * nat * nat)
    (k : nat) (tz : string) (h m s : nat) :
  cards !! k = Some tz -> now tz = (h, m, s) -> h <= 24 -> m < 60 -> s < 60 ->
  exists st, clock_styles cards now !! k = Some st /\
    second_css st = ("rotate(" ++ z_to_decimal (6 * Z.of_nat s) ++ "deg)")%string /\
    hour_css st = ("rotate(" ++ half_text (60 * Z.rem (Z.of_nat h) 12 + Z.of_nat m) ++ "deg)")%string /\
    (minute_css st = ("rotate(" ++ tenth_text (60 * Z.of_nat m + Z.of_nat s) ++ "deg)")%string <->
     (m, s) ∉ minute_artifacts).
Proof.
  intros Hk Hnow Hh Hm Hs.
  rewrite (clock_styles_lookup cards now k tz h m s Hk Hnow), clock_hands_reading by lia.
  eexists; split; [reflexivity|]. unfold render, css_rotate.
  cbn [second_css minute_css hour_css second_deg minute_deg hour_deg].
  pose proof (second_text_all s Hs) as HS. apply String.eqb_eq in HS.
  pose proof (forallb_seq_at _ 60 m (hour_text_all h Hh) Hm) as HH. apply String.eqb_eq in HH.
  pose proof (forallb_seq_at _ 60 s (minute_text_all m Hm) Hs) as HM.
  cbv beta in HM. apply Bool.eqb_prop in HM.
  rewrite HS, HH. split; [reflexivity|]. split; [reflexivity|].
  rewrite <- is_artifact_spec. split.
  - intros Heq. apply css_rotate_inj, String.eqb_eq in Heq. rewrite Heq in HM.
    destruct (is_artifact m s); [discriminate | done].
  - intros Hn. apply not_true_is_false in Hn. rewrite Hn in HM.
    by apply String.eqb_eq in HM as ->.
Qed.

Lemma clock_css_texts_witness :
  exists st, clock_styles ["Asia/Tokyo"] (fun _ => (13, 0, 3)) !! 0 = Some st /\
    second_css st = ("rotate(" ++ z_to_decimal (6 * Z.of_nat 3) ++ "deg)")%string /\
    hour_css st = ("rotate(" ++ half_text (60 * Z.rem (Z.of_nat 13) 12 + Z.of_nat 0) ++ "deg)")%string /\
    (minute_css st = ("rotate(" ++ tenth_text (60 * Z.of_nat 0 + Z.of_nat 3) ++ "deg)")%string <->
     (0, 3) ∉ minute_artifacts).
Proof.
  exact (clock_css_texts ["Asia/Tokyo"] (fun _ => (13, 0, 3)) 0 "Asia/Tokyo" 13 0 3
           eq_refl eq_refl ltac:(lia) ltac:(lia) ltac:(lia)).
Defined.

(** C38: the clocks keep no state of their own: from the page as loaded,
    the ready handler draws the hands at once, and after any number of
    ticks of the timer the hands are those of the reading at the last
    tick (or at load, before the first). *)
Theorem clock_page_tracks_reading (cards : list string) (styles0 : list card_style)
    (now0 : string -> nat * nat * nat) (ticks : list (string -> nat * nat * nat)) :
  clock_run cards (mkClockPage false styles0) (PageReady now0 :: map TimerTick ticks) =
    Some (mkClockPage true (clock_styles cards (List.last ticks now0))).
Proof.
  revert now0. induction ticks as [|t ticks IH]; intros now0; [reflexivity|].
  rewrite last_cons_default. exact (IH t).
Qed.

End ClockProofs.

Module GistProofs.
Import Gist.

(** The affordances agree with the class: [.show-more] exactly when the
    container is not expanded, [.show-less] exactly when it is. *)
Definition consistent (g : gist) : Prop :=
  more_shown g = negb (expanded g) /\ less_shown g = expanded g.

(** C21: whatever the state of the container, one click flips
    [expanded] and leaves the affordances consistent with it; from a
    consistent state, a second click restores the state. *)
Theorem toggle_click_spec (g : gist) :
  expanded (toggle_click g) = negb (expanded g) /\
  consistent (toggle_click g) /\
  (consistent g -> toggle_click (toggle_click g) = g).
Proof.
  destruct g as [e mo le]; unfold consistent; simpl.
  split; [reflexivity|]. split; [split; reflexivity|].
  intros [-> ->]. by destruct e.
Qed.

End GistProofs.

Lemma toggle_click_spec_witness :
  Gist.expanded (Gist.toggle_click (Gist.mkGist false true false)) = true /\
  GistProofs.consistent (Gist.toggle_click (Gist.mkGist false true false)) /\
  (GistProofs.consistent (Gist.mkGist false true false) ->
   Gist.toggle_click (Gist.toggle_click (Gist.mkGist false true false)) =
     Gist.mkGist false true false).
Proof. exact (GistProofs.toggle_click_spec (Gist.mkGist false true false)). Defined.
